(** * lookup: filling struct fields from prioritised key/value sources

    A shallow embedding of package [lookup] (carloslenz/lookup).  The
    package file [lookup.go] is present in three revisions, kept one after
    the other in [src/unnamed/part_002]; they are embedded side by side:

    - [R1]: lines 1-195, [findTag] / [setField] / [Lookup(e, r, seq...)];
    - [R2]: lines 196-387, [Lookup(e, r, seq...)] with the tag loop and the
      coercion switch written inline;
    - [R3]: lines 388-631, [Seq] / [Lookup(e, l, r)] with the [strconv]
      based setters [setInt], [setUint], [setFloat], [setComplex].

    The adapters [NoError], [NoBool] and the sequence resolver are the same
    text in all three revisions and are embedded once. *)

From stdpp Require Import gmap strings.
From Stdlib Require Import ZArith List String Ascii Bool Lia.
From Stdlib Require Import Init.Byte.
From Stdlib Require Import Floats.PrimFloat.
Import ListNotations.
Local Open Scope list_scope.
Local Open Scope string_scope.
Local Open Scope Z_scope.

(** ** Go values that the package handles *)

(** Go's [error] values.  The first three are produced outside the package
    (sources, [strconv], [encoding/base64]); the others are the messages
    [Lookup] builds, with the format string each one stands for. *)
Inductive error : Type :=
| errorString (s : string)
    (* errors.New(s); also any error a source returns *)
| NumError (Func Num : string)
    (* strconv: &NumError{Func, Num, ErrSyntax} *)
| CorruptInputError
    (* encoding/base64: illegal base64 data *)
| ErrNeedsPointer
    (* "Lookup needs a pointer argument" *)
| ErrLookupFailed (fieldName : string) (err : error)
    (* "lookup for for field %q failed: %s" *)
| ErrNotType (v fieldName : string) (T : string) (err : error)
    (* "value %q for field %q is not %T: %s" *)
| ErrNotBool (v fieldName : string) (err : error)
    (* "value %q for field %q is not bool: %s" *)
| ErrMissingRequired (fieldName : string)
    (* "missing value for required field %q" *)
| ErrNotAddressable (v fieldName : string)
    (* "field %q of type %T is not addressable" *)
| ErrNothingToRead.
    (* "nothing to read" (R1), epp.New("") (R2) *)

Inductive intType := Tint | Tint8 | Tint16 | Tint32 | Tint64.
Inductive uintType := Tuint | Tuint8 | Tuint16 | Tuint32 | Tuint64.
Inductive floatType := Tfloat32 | Tfloat64.
Inductive complexType := Tcomplex64 | Tcomplex128.

(** The contents of a struct field, as [field.Interface()] shows them; also
    what a [Reporter] is handed as [interface{}]. *)
Inductive value : Type :=
| Vstring (s : string)
| Vbytes (b : list byte)
| Vbool (b : bool)
| Vint (t : intType) (i : Z)
| Vuint (t : uintType) (u : Z)
| Vfloat (t : floatType) (f : float)
| Vcomplex (t : complexType) (re im : float)
| Vother (T : string) (repr : string).

(** [%T] of a value. *)
Definition typeName (v : value) : string :=
  match v with
  | Vstring _ => "string"
  | Vbytes _ => "[]uint8"
  | Vbool _ => "bool"
  | Vint Tint _ => "int" | Vint Tint8 _ => "int8" | Vint Tint16 _ => "int16"
  | Vint Tint32 _ => "int32" | Vint Tint64 _ => "int64"
  | Vuint Tuint _ => "uint" | Vuint Tuint8 _ => "uint8"
  | Vuint Tuint16 _ => "uint16" | Vuint Tuint32 _ => "uint32"
  | Vuint Tuint64 _ => "uint64"
  | Vfloat Tfloat32 _ => "float32" | Vfloat Tfloat64 _ => "float64"
  | Vcomplex Tcomplex64 _ _ => "complex64"
  | Vcomplex Tcomplex128 _ _ => "complex128"
  | Vother T _ => T
  end.

(** ** The parts of Go's standard library that the package calls

    These are not code of the package; they are transcribed from the Go
    library so that the package's functions can be run.  [fmt.Sscanln] and
    the number parsers of [strconv] are left as parameters of the sections
    that use them; of [fmt.Sscanln], the scanning of a [bool] is
    transcribed ([fmt.Sscanln_bool]). *)

Module strings.

(** [strings.Split(s, sep)] for a one-byte separator: the substrings
    between the separators; never an empty slice. *)
Fixpoint Split (s : string) (sep : ascii) : list string :=
  match s with
  | EmptyString => [EmptyString]
  | String c rest =>
      if Ascii.eqb c sep then EmptyString :: Split rest sep
      else match Split rest sep with
           | [] => [String c EmptyString]
           | p :: ps => String c p :: ps
           end
  end.

(** [parts[:2]] on the slice [Split] returns, whose capacity is its
    length: [None] is the run-time panic "slice bounds out of range". *)
Definition slice_to_2 (parts : list string) : option (list string) :=
  if (2 <=? Z.of_nat (List.length parts)) then Some (firstn 2 parts) else None.

End strings.

Module strconv.

(** [strconv.ParseBool] (strconv/atob.go): a switch over twelve literals. *)
Definition ParseBool (str : string) : bool * option error :=
  if existsb (String.eqb str) ["1"; "t"; "T"; "true"; "TRUE"; "True"]
  then (true, None)
  else if existsb (String.eqb str) ["0"; "f"; "F"; "false"; "FALSE"; "False"]
  then (false, None)
  else (false, Some (NumError "ParseBool" str)).

End strconv.

Module fmt.

(** What [fmt.Sscanln(str, p)] does for [p] of type [*bool], transcribed
    from Go's fmt/scan.go.  [Sscanln] scans with [nlIsSpace = false] and
    [nlIsEnd = true]; [doScan] calls [scanOne('v', p)], which stores
    [s.scanBool('v')] through [p], and then wants the rest of the line to
    be blank.  The scanner raises its errors by panicking with a
    [scanError], which [errorHandler] recovers into the error that is
    returned: here they are the [inl] of a result.  The text is read rune
    by rune. *)

Definition rune : Type := Z.

(** [const eof = -1]. *)
Definition eof : rune := -1.

(** The rune of an ASCII character, and the runes of a string of ASCII
    characters (for which decoding UTF-8 is the identity). *)
Definition rune_of (c : ascii) : rune := Z.of_N (N_of_ascii c).

Definition runes (s : string) : list rune :=
  List.map rune_of (list_ascii_of_string s).

(** [var space = [][2]uint16{...}] and [func isSpace(r rune) bool]. *)
Definition space : list (Z * Z) :=
  [(0x0009, 0x000d); (0x0020, 0x0020); (0x0085, 0x0085); (0x00a0, 0x00a0);
   (0x1680, 0x1680); (0x2000, 0x200a); (0x2028, 0x2029); (0x202f, 0x202f);
   (0x205f, 0x205f); (0x3000, 0x3000)].

Fixpoint isSpace_loop (rx : Z) (ranges : list (Z * Z)) : bool :=
  match ranges with
  | [] => false
  | (lo, hi) :: rest =>
      if rx <? lo then false
      else if rx <=? hi then true
      else isSpace_loop rx rest
  end.

Definition isSpace (r : rune) : bool :=
  if 2 ^ 16 <=? r then false else isSpace_loop (r mod 2 ^ 16) space.

(** The scan state [ss]: the runes that are left to read, and [atEOF]. *)
Record ss : Type := mkSs { rs : list rune; atEOF : bool }.

(** [func (s *ss) getRune() rune], through [ReadRune]: at the end of the
    text it returns [eof]; having read a newline it sets [atEOF], since
    [nlIsEnd] holds. *)
Definition getRune (s : ss) : rune * ss :=
  if atEOF s then (eof, s)
  else
    match rs s with
    | [] => (eof, mkSs [] true)
    | r :: rest => (r, mkSs rest (r =? 10))
    end.

(** [func (s *ss) UnreadRune() error], [r] being the rune read last. *)
Definition UnreadRune (r : rune) (s : ss) : ss := mkSs (r :: rs s) false.

(** [indexRune(ok, r) >= 0]. *)
Definition indexRune (ok : list rune) (r : rune) : bool := existsb (Z.eqb r) ok.

(** [func (s *ss) peek(ok string) bool]. *)
Definition peek (ok : list rune) (s : ss) : bool * ss :=
  let '(r, s) := getRune s in
  let s := if r =? eof then s else UnreadRune r s in
  (indexRune ok r, s).

(** [func (s *ss) accept(ok string) bool], that is [s.consume(ok, true)]. *)
Definition accept (ok : list rune) (s : ss) : bool * ss :=
  let '(r, s) := getRune s in
  if r =? eof then (false, s)
  else if indexRune ok r then (true, s)
  else (false, UnreadRune r s).

(** [func (s *ss) SkipSpace()]; [n] bounds the turns of its loop, each of
    which reads a rune. *)
Fixpoint SkipSpace (n : nat) (s : ss) : error + ss :=
  match n with
  | O => inr s
  | S n =>
      let '(r, s) := getRune s in
      if r =? eof then inr s
      else
        let '(crlf, s) := if r =? 13 then peek [10] s else (false, s) in
        if crlf then SkipSpace n s
        else if r =? 10 then inl (errorString "unexpected newline")
        else if negb (isSpace r) then inr (UnreadRune r s)
        else SkipSpace n s
  end.

(** [func (s *ss) notEOF()]: it panics with [io.EOF]. *)
Definition notEOF (s : ss) : error + ss :=
  let '(r, s) := getRune s in
  if r =? eof then inl (errorString "EOF") else inr (UnreadRune r s).

(** [var boolError = errors.New("syntax error scanning boolean")]. *)
Definition boolError : error := errorString "syntax error scanning boolean".

(** [func (s *ss) scanBool(verb rune) bool], for the verb ['v']. *)
Definition scanBool (n : nat) (s : ss) : error + bool * ss :=
  match SkipSpace n s with
  | inl e => inl e
  | inr s =>
      match notEOF s with
      | inl e => inl e
      | inr s =>
          let '(r, s) := getRune s in
          if r =? rune_of "0" then inr (false, s)
          else if r =? rune_of "1" then inr (true, s)
          else if (r =? rune_of "t") || (r =? rune_of "T") then
            let '(a, s) := accept (runes "rR") s in
            if a then
              let '(a, s) := accept (runes "uU") s in
              if negb a then inl boolError
              else
                let '(a, s) := accept (runes "eE") s in
                if negb a then inl boolError else inr (true, s)
            else inr (true, s)
          else if (r =? rune_of "f") || (r =? rune_of "F") then
            let '(a, s) := accept (runes "aA") s in
            if a then
              let '(a, s) := accept (runes "lL") s in
              if negb a then inl boolError
              else
                let '(a, s) := accept (runes "sS") s in
                if negb a then inl boolError
                else
                  let '(a, s) := accept (runes "eE") s in
                  if negb a then inl boolError else inr (false, s)
            else inr (false, s)
          else inr (false, s)
      end
  end.

(** The end of [doScan]: [if s.nlIsEnd { for { ... } }]. *)
Fixpoint expect_newline (n : nat) (s : ss) : option error :=
  match n with
  | O => None
  | S n =>
      let '(r, s) := getRune s in
      if (r =? 10) || (r =? eof) then None
      else if negb (isSpace r) then Some (errorString "expected newline")
      else expect_newline n s
  end.

(** [fmt.Sscanln(str, p)] for [p : *bool] on the text [input]: the count
    of items stored, the boolean stored through [p] (if one was) and the
    error. *)
Definition Sscanln_bool (input : list rune) : Z * option bool * option error :=
  let n := S (List.length input) in
  match scanBool n (mkSs input false) with
  | inl e => (0, None, Some e)
  | inr (b, s) => (1, Some b, expect_newline n s)
  end.

End fmt.

(** Go's [byte(x)] and [uint(b)] conversions. *)
Definition byte_to_Z (b : byte) : Z := Z.of_N (Byte.to_N b).

Definition byte_of_Z (z : Z) : byte :=
  match Byte.of_N (Z.to_N (z mod 256)) with
  | Some b => b
  | None => x00
  end.

Module base64.

(** [encodeStd], the standard alphabet. *)
Definition encodeStd : string :=
  "ABCDEFGHIJKLMNOPQRSTUVWXYZabcdefghijklmnopqrstuvwxyz0123456789+/".

(** [enc.encode[i]]. *)
Definition encode (i : Z) : ascii :=
  nth (Z.to_nat i) (list_ascii_of_string encodeStd) "A"%char.

Fixpoint index_from (c : ascii) (alphabet : list ascii) (i : Z) : Z :=
  match alphabet with
  | [] => 255
  | a :: rest => if Ascii.eqb a c then i else index_from c rest (i + 1)
  end.

(** [enc.decodeMap[c]]: the position of [c] in the alphabet, [0xff] for
    a byte that is not in it. *)
Definition decodeMap (c : ascii) : Z :=
  index_from c (list_ascii_of_string encodeStd) 0.

(** [RawStdEncoding.EncodeToString]: three bytes give four characters; a
    last group of one or two bytes gives two or three, without padding. *)
Fixpoint EncodeToString (src : list byte) : string :=
  match src with
  | [] => EmptyString
  | [a] =>
      let val := Z.shiftl (byte_to_Z a) 16 in
      String (encode (Z.land (Z.shiftr val 18) 63))
        (String (encode (Z.land (Z.shiftr val 12) 63)) EmptyString)
  | [a; b] =>
      let val := Z.lor (Z.shiftl (byte_to_Z a) 16) (Z.shiftl (byte_to_Z b) 8) in
      String (encode (Z.land (Z.shiftr val 18) 63))
        (String (encode (Z.land (Z.shiftr val 12) 63))
           (String (encode (Z.land (Z.shiftr val 6) 63)) EmptyString))
  | a :: b :: c :: rest =>
      let val := Z.lor (Z.lor (Z.shiftl (byte_to_Z a) 16)
                              (Z.shiftl (byte_to_Z b) 8)) (byte_to_Z c) in
      String (encode (Z.land (Z.shiftr val 18) 63))
        (String (encode (Z.land (Z.shiftr val 12) 63))
           (String (encode (Z.land (Z.shiftr val 6) 63))
              (String (encode (Z.land val 63)) (EncodeToString rest))))
  end.

(** The end of [decodeQuantum]: the 6-bit values collected in [dbuf]
    (two, three or four of them) give one, two or three bytes. *)
Definition quantum (dbuf : list Z) : list byte :=
  let d := fun i => nth i dbuf 0 in
  let val := Z.lor (Z.lor (Z.lor (Z.shiftl (d 0%nat) 18) (Z.shiftl (d 1%nat) 12))
                          (Z.shiftl (d 2%nat) 6)) (d 3%nat) in
  firstn (List.length dbuf - 1)
    [byte_of_Z (Z.shiftr val 16); byte_of_Z (Z.shiftr val 8); byte_of_Z val].

(** The decoding loop of [RawStdEncoding] (no padding character, not
    strict): [dbuf] holds the 6-bit values of the quantum being read,
    [dst] the bytes of the quanta already decoded.  CR and LF are
    skipped; any other byte outside the alphabet, or a single left-over
    character, is a [CorruptInputError], returned with the bytes decoded
    so far. *)
Fixpoint decode (src : string) (dbuf : list Z) (dst : list byte)
  : list byte * option error :=
  match src with
  | EmptyString =>
      match dbuf with
      | [] => (dst, None)
      | [_] => (dst, Some CorruptInputError)
      | _ => (dst ++ quantum dbuf, None)%list
      end
  | String c rest =>
      let out := decodeMap c in
      if out =? 255 then
        if Ascii.eqb c "010"%char || Ascii.eqb c "013"%char
        then decode rest dbuf dst
        else (dst, Some CorruptInputError)
      else
        let dbuf' := (dbuf ++ [out])%list in
        if (List.length dbuf' =? 4)%nat
        then decode rest [] (dst ++ quantum dbuf')%list
        else decode rest dbuf' dst
  end.

(** [RawStdEncoding.DecodeString]. *)
Definition DecodeString (s : string) : list byte * option error :=
  decode s [] [].

End base64.

Module reflect.

(** A [reflect.StructTag] in its conventional form, as the list of its
    [key:"value"] pairs. *)
Definition StructTag : Type := list (string * string).

(** [StructTag.Lookup]: the value of the first pair with that key, and
    whether there is one. *)
Fixpoint Lookup (tag : StructTag) (key : string) : string * bool :=
  match tag with
  | [] => ("", false)
  | (k, v) :: rest => if String.eqb k key then (v, true) else Lookup rest key
  end.

End reflect.

(** ** Sources: the [Looker] interface and its adapters *)

(** The triple [(v, b, err)] that [LookupKey] returns. *)
Definition result : Type := string * bool * option error.

Section Sources.

(** What the sources read and change when they are called: the process
    environment, parsed files, lazily filled caches. *)
Context {W : Type}.

(** [Looker]: the one method [LookupKey(string) (string, bool, error)],
    which may read and write the world. *)
Definition Looker : Type := string -> W -> result * W.

(** [func (l NoError) LookupKey(s)]: [v, b = l.F(s); return v, b, nil]. *)
Definition NoError (F : string -> W -> (string * bool) * W) : Looker :=
  fun s w =>
    let '((v, b), w') := F s w in
    ((v, b, None), w').

(** [func (l NoBool) LookupKey(s)]:
    [v, err = l.F(s); return v, err != nil, err]. *)
Definition NoBool (F : string -> W -> (string * option error) * W) : Looker :=
  fun s w =>
    let '((v, err), w') := F s w in
    ((v, match err with Some _ => true | None => false end, err), w').

(** The test [err == nil && b] that ends the loop of [lookupKey]. *)
Definition accepted (r : result) : bool :=
  let '(_, b, err) := r in
  match err with
  | None => b
  | Some _ => false
  end.

(** The loop of [lookupKey]: [cur] is the current content of the named
    results [v, b, err]. *)
Fixpoint lookupKey_loop (s : string) (l : list Looker) (cur : result) (w : W)
  : result * W :=
  match l with
  | [] => (cur, w)
  | e :: rest =>
      let '(r, w') := e s w in
      if accepted r then (r, w') else lookupKey_loop s rest r w'
  end.

(** [func lookupKey(s string, l []Looker) (v string, b bool, err error)]
    (R1, R2); the named results start as ["", false, nil]. *)
Definition lookupKey (s : string) (l : list Looker) (w : W) : result * W :=
  lookupKey_loop s l ("", false, None) w.

(** [type Seq []Looker] and [func (l Seq) LookupKey(s)] (R3): the same
    loop, as a method. *)
Definition Seq : Type := list Looker.

Definition Seq_LookupKey (l : Seq) : Looker :=
  fun s w => lookupKey_loop s l ("", false, None) w.

End Sources.

Arguments Looker : clear implicits.
Arguments Seq : clear implicits.

(** ** Records, fields and the reporter *)

(** One struct field, as [t.Field(i)] and [value.Field(i)] show it: its
    declared name, its [PkgPath] (of [reflect.StructField]: empty for an
    exported field, the package path for an unexported one), its tag and
    its current value (whose constructor is the field's type). *)
Record Field : Type := mkField {
  Name : string;
  PkgPath : string;
  Tag : reflect.StructTag;
  Val : value
}.

(** What can be observed of a pass besides its result: the stores into
    fields and the calls of [Report], in the order they happen. *)
Inductive event : Type :=
| EvSet (fieldName : string) (v : value)
| EvReport (key : string) (e : value).

(** [Reporter]: the one method [Report(key string, e interface{})], acting
    on the log of events. *)
Definition Reporter : Type := string -> value -> list event -> list event.

(** [discardReporter.Report] does nothing. *)
Definition discard : Reporter := fun _ _ t => t.

(** A reporter that keeps every call it receives (as the tests' [entries]
    does). *)
Definition recording : Reporter := fun key e t => (t ++ [EvReport key e])%list.

(** [if r == nil { r = discard }]. *)
Definition orDiscard (r : option Reporter) : Reporter :=
  match r with
  | Some r => r
  | None => discard
  end.

(** [field.SetString], [field.SetBytes], ... and the stores [fmt.Sscanln]
    makes through [field.Addr()]: the field holds [v] from then on. *)
Definition store (f : Field) (v : value) (t : list event) : Field * list event :=
  (mkField (Name f) (PkgPath f) (Tag f) v, (t ++ [EvSet (Name f) v])%list).

(** [field.CanAddr()]: [Lookup] reaches the fields through [value.Elem()]
    of a pointer, so every field is addressable. *)
Definition CanAddr (f : Field) : bool := true.

(** [field.CanInterface()]: a [reflect.Value] obtained from an unexported
    struct field is read-only, and [field.Interface()] panics on it. *)
Definition CanInterface (f : Field) : bool := String.eqb (PkgPath f) "".

Definition Interface_panic : string :=
  "reflect.Value.Interface: cannot return value obtained from unexported field or method".

(** How a call ends: it returns its [error], or the goroutine panics. *)
Inductive outcome : Type :=
| Returned (err : option error)
| Panicked (msg : string).

(** The argument [e interface{}] of [Lookup]. *)
Inductive Arg : Type :=
| NotPointer
| NilPointer
| Pointer (fields : list Field).

(** [var lookupTags = []struct{ tag, optional string }]. *)
Record tagDef : Type := mkTagDef { tag : string; optional : string }.

Definition lookupTags : list tagDef :=
  [mkTagDef "json" "omitempty"; mkTagDef "lookup" "optional"].

(** [const notFound = ""]. *)
Definition notFound : string := "".

(** ** R1: [src/unnamed/part_002], lines 1-195 *)

Module R1.
Section R1.

Context {W : Type}.

(** [fmt.Sscanln(v+"\n", field.Addr().Interface())]: the count, what it
    stored into the field (if it stored) and the error. *)
Variable Sscanln : string -> value -> Z * option value * option error.

(** The loop of [findTag] over the tag systems that are left. *)
Fixpoint findTag_loop (defs : list tagDef) (tg : reflect.StructTag)
  : string * bool :=
  match defs with
  | [] => (notFound, false)
  | def :: rest =>
      let '(s, ok) := reflect.Lookup tg (tag def) in
      if ok && negb (String.eqb s "") then
        match strings.Split s ","%char with
        | [] => ("", false)
        | [_] => (s, false)
        | p0 :: p1 :: _ => (p0, String.eqb p1 (optional def))
        end
      else findTag_loop rest tg
  end.

(** [func findTag(tag reflect.StructTag) (key string, optional bool)]. *)
Definition findTag (tg : reflect.StructTag) : string * bool :=
  findTag_loop lookupTags tg.

(** [func setField(field, v, fieldKey, fieldName, r) error]: the field
    and the log afterwards, and how the call ends.  Its first statement,
    [val := field.Interface()], panics for an unexported field. *)
Definition setField (field : Field) (v fieldKey fieldName : string)
    (r : Reporter) (t : list event) : Field * list event * outcome :=
  if negb (CanInterface field) then (field, t, Panicked Interface_panic)
  else
  match Val field with
  | Vstring _ =>
      let '(field, t) := store field (Vstring v) t in
      (field, r fieldKey (Val field) t, Returned None)
  | Vbytes _ =>
      let '(b, err) := base64.DecodeString v in
      match err with
      | Some err => (field, t, Returned (Some err))
      | None =>
          let '(field, t) := store field (Vbytes b) t in
          (field, r fieldKey (Vbytes b) t, Returned None)
      end
  | _ =>
      if negb (CanAddr field) then
        (field, t, Returned (Some (ErrNotAddressable v fieldName)))
      else
        let '(n, stored, err) := Sscanln (v ++ String "010"%char "") (Val field) in
        let '(field, t) :=
          match stored with
          | Some x => store field x t
          | None => (field, t)
          end in
        match err with
        | Some err => (field, t, Returned (Some err))
        | None =>
            if negb (n =? 1) then (field, t, Returned (Some ErrNothingToRead))
            else (field, r fieldKey (Val field) t, Returned None)
        end
  end.

(** The loop [for i := 0; i < t.NumField(); i++] of [Lookup], from the
    field at hand on: the fields, the world and the log afterwards, and
    how the call ends ([Lookup] does not recover a panic of [setField]). *)
Fixpoint Lookup_fields (fields : list Field) (r : Reporter)
    (seq : list (Looker W)) (w : W) (t : list event)
  : list Field * W * list event * outcome :=
  match fields with
  | [] => ([], w, t, Returned None)
  | field :: rest =>
      let '(fieldKey, opt) := findTag (Tag field) in
      if String.eqb fieldKey notFound then
        let '(rest, w, t, out) := Lookup_fields rest r seq w t in
        (field :: rest, w, t, out)
      else
        let '((v, ok, err), w) := lookupKey fieldKey seq w in
        match err with
        | Some err =>
            (field :: rest, w, t,
             Returned (Some (ErrLookupFailed (Name field) err)))
        | None =>
            if ok then
              let '(field, t, out) := setField field v fieldKey (Name field) r t in
              match out with
              | Panicked msg => (field :: rest, w, t, Panicked msg)
              | Returned (Some err) =>
                  (field :: rest, w, t,
                   Returned (Some (ErrNotType v (Name field) (typeName (Val field)) err)))
              | Returned None =>
                  let '(rest, w, t, out) := Lookup_fields rest r seq w t in
                  (field :: rest, w, t, out)
              end
            else if negb opt then
              (field :: rest, w, t, Returned (Some (ErrMissingRequired (Name field))))
            else
              let t := r fieldKey (Vstring v) t in
              let '(rest, w, t, out) := Lookup_fields rest r seq w t in
              (field :: rest, w, t, out)
        end
  end.

(** [func Lookup(e interface{}, r Reporter, seq ...Looker) error]. *)
Definition Lookup (e : Arg) (r : option Reporter) (seq : list (Looker W))
    (w : W) (t : list event) : Arg * W * list event * outcome :=
  match e with
  | NotPointer => (NotPointer, w, t, Returned (Some ErrNeedsPointer))
  | NilPointer => (NilPointer, w, t, Returned (Some ErrNeedsPointer))
  | Pointer fields =>
      let '(fields, w, t, out) := Lookup_fields fields (orDiscard r) seq w t in
      (Pointer fields, w, t, out)
  end.

End R1.
End R1.

(** ** R2: [src/unnamed/part_002], lines 196-387 *)

Module R2.
Section R2.

Context {W : Type}.

(** [fmt.Sscanln], as in [R1]. *)
Variable Sscanln : string -> value -> Z * option value * option error.

(** The loop [for _, def := range lookupTags] inside [Lookup]: it has no
    [break], and [fieldKey], [optional], [found] are carried from one tag
    system to the next. *)
Fixpoint tag_loop (defs : list tagDef) (tg : reflect.StructTag)
    (st : string * bool * bool) : string * bool * bool :=
  match defs with
  | [] => st
  | def :: rest =>
      let '(fieldKey, opt, found) := st in
      let '(s, ok) := reflect.Lookup tg (tag def) in
      if ok && negb (String.eqb s "") then
        let '(key, opt) :=
          match strings.Split s ","%char with
          | [] => ("", opt)
          | [_] => (s, opt)
          | p0 :: p1 :: _ => (p0, String.eqb p1 (optional def))
          end in
        tag_loop rest tg (key, opt, true)
      else tag_loop rest tg st
  end.

(** The body of [if ok { ... }] up to the test [if err != nil]: the
    switch on the field's type.  The result is the field and the log
    afterwards, the [err] of the enclosing block, and the error returned
    from inside the switch, if any. *)
Definition coerce (field : Field) (v fieldKey : string) (r : Reporter)
    (t : list event) : Field * list event * option error * option error :=
  match Val field with
  | Vstring _ =>
      let '(field, t) := store field (Vstring v) t in
      (field, r fieldKey (Vstring v) t, None, None)
  | Vbytes _ =>
      let '(b, err) := base64.DecodeString v in
      let '(field, t) :=
        match err with
        | Some _ => store field (Vbytes b) t
        | None => (field, t)
        end in
      (field, r fieldKey (Vbytes b) t, None, None)
  | _ =>
      if CanAddr field then
        let '(n, stored, err) := Sscanln (v ++ String "010"%char "") (Val field) in
        let '(field, t) :=
          match stored with
          | Some x => store field x t
          | None => (field, t)
          end in
        let err :=
          match err with
          | None => if negb (n =? 1) then Some ErrNothingToRead else None
          | Some _ => err
          end in
        match err with
        | None => (field, r fieldKey (Vstring v) t, None, None)
        | Some _ => (field, t, err, None)
        end
      else (field, t, None, Some (ErrNotAddressable v (Name field)))
  end.

(** The loop over the fields of [Lookup]: the fields, the world and the
    log afterwards, and how the call ends.  [val := field.Interface()], the
    first statement of [if ok { ... }], panics for an unexported field. *)
Fixpoint Lookup_fields (fields : list Field) (r : Reporter)
    (seq : list (Looker W)) (w : W) (t : list event)
  : list Field * W * list event * outcome :=
  match fields with
  | [] => ([], w, t, Returned None)
  | field :: rest =>
      let '(fieldKey, opt, found) :=
        tag_loop lookupTags (Tag field) (Name field, false, false) in
      if negb found then
        let '(rest, w, t, out) := Lookup_fields rest r seq w t in
        (field :: rest, w, t, out)
      else
        let '((v, ok, err), w) := lookupKey fieldKey seq w in
        match err with
        | Some err =>
            (field :: rest, w, t,
             Returned (Some (ErrLookupFailed (Name field) err)))
        | None =>
            if ok then
              if negb (CanInterface field) then
                (field :: rest, w, t, Panicked Interface_panic)
              else
              let val := Val field in
              let '(field, t, err, returned) := coerce field v fieldKey r t in
              match returned, err with
              | Some e, _ => (field :: rest, w, t, Returned (Some e))
              | None, Some err =>
                  (field :: rest, w, t,
                   Returned (Some (ErrNotType v (Name field) (typeName val) err)))
              | None, None =>
                  let '(rest, w, t, out) := Lookup_fields rest r seq w t in
                  (field :: rest, w, t, out)
              end
            else if negb opt then
              (field :: rest, w, t, Returned (Some (ErrMissingRequired (Name field))))
            else
              let t := r fieldKey (Vstring v) t in
              let '(rest, w, t, out) := Lookup_fields rest r seq w t in
              (field :: rest, w, t, out)
        end
  end.

(** [func Lookup(e interface{}, r Reporter, seq ...Looker) error]. *)
Definition Lookup (e : Arg) (r : option Reporter) (seq : list (Looker W))
    (w : W) (t : list event) : Arg * W * list event * outcome :=
  match e with
  | NotPointer => (NotPointer, w, t, Returned (Some ErrNeedsPointer))
  | NilPointer => (NilPointer, w, t, Returned (Some ErrNeedsPointer))
  | Pointer fields =>
      let '(fields, w, t, out) := Lookup_fields fields (orDiscard r) seq w t in
      (Pointer fields, w, t, out)
  end.

End R2.
End R2.

(** ** R3: [src/unnamed/part_002], lines 388-631 *)

Module R3.
Section R3.

Context {W : Type}.

(** [strconv.ParseInt(s, base, bitSize)], [strconv.ParseUint(s, base,
    bitSize)] and [strconv.ParseFloat(s, bitSize)].  With [bitSize] 32
    [ParseFloat] returns a value that [float32] holds exactly. *)
Variable ParseInt : string -> Z -> Z -> Z * option error.
Variable ParseUint : string -> Z -> Z -> Z * option error.
Variable ParseFloat : string -> Z -> float * option error.

(** [func setUint(field, s, bits, r, fieldKey) error]. *)
Definition setUint (field : Field) (s : string) (bits : Z) (r : Reporter)
    (fieldKey : string) (t : list event) : Field * list event * outcome :=
  let '(u, err) := ParseUint s 0 bits in
  match err with
  | Some err => (field, t, Returned (Some err))
  | None =>
      match Val field with
      | Vuint ty _ =>
          let '(field, t) := store field (Vuint ty u) t in
          (field, r fieldKey (Vuint Tuint64 u) t, Returned None)
      | _ => (field, t, Panicked "reflect: call of reflect.Value.SetUint")
      end
  end.

(** [func setInt(field, s, bits, r, fieldKey) error]. *)
Definition setInt (field : Field) (s : string) (bits : Z) (r : Reporter)
    (fieldKey : string) (t : list event) : Field * list event * outcome :=
  let '(i, err) := ParseInt s 0 bits in
  match err with
  | Some err => (field, t, Returned (Some err))
  | None =>
      match Val field with
      | Vint ty _ =>
          let '(field, t) := store field (Vint ty i) t in
          (field, r fieldKey (Vint Tint64 i) t, Returned None)
      | _ => (field, t, Panicked "reflect: call of reflect.Value.SetInt")
      end
  end.

(** [func setFloat(field, s, bits, r, fieldKey) error]. *)
Definition setFloat (field : Field) (s : string) (bits : Z) (r : Reporter)
    (fieldKey : string) (t : list event) : Field * list event * outcome :=
  let '(f, err) := ParseFloat s bits in
  match err with
  | Some err => (field, t, Returned (Some err))
  | None =>
      match Val field with
      | Vfloat ty _ =>
          let '(field, t) := store field (Vfloat ty f) t in
          (field, r fieldKey (Vfloat Tfloat64 f) t, Returned None)
      | _ => (field, t, Panicked "reflect: call of reflect.Value.SetFloat")
      end
  end.

(** The loop [for i, q := range ...] of [setComplex], over the
    components that are left: [c] is the array [var c [2]float64]. *)
Fixpoint setComplex_loop (qs : list string) (i : nat) (bits : Z)
    (c : float * float) : (float * float) * option error :=
  match qs with
  | [] => (c, None)
  | q :: rest =>
      let '(f, err) := ParseFloat q bits in
      match err with
      | Some err => (c, Some err)
      | None =>
          setComplex_loop rest (S i) bits
            (match i with
             | O => (f, snd c)
             | _ => (fst c, f)
             end)
      end
  end.

(** [func setComplex(field, s, bits, r, fieldKey) error]. *)
Definition setComplex (field : Field) (s : string) (bits : Z) (r : Reporter)
    (fieldKey : string) (t : list event) : Field * list event * outcome :=
  match strings.slice_to_2 (strings.Split s ","%char) with
  | None => (field, t, Panicked "slice bounds out of range [:2] with capacity 1")
  | Some qs =>
      let '(c, err) := setComplex_loop qs 0 bits (0%float, 0%float) in
      match err with
      | Some err => (field, t, Returned (Some err))
      | None =>
          match Val field with
          | Vcomplex ty _ _ =>
              let '(field, t) := store field (Vcomplex ty (fst c) (snd c)) t in
              (field, r fieldKey (Vcomplex Tcomplex128 (fst c) (snd c)) t,
               Returned None)
          | _ => (field, t, Panicked "reflect: call of reflect.Value.SetComplex")
          end
      end
  end.

(** The tag handling inside [Lookup]: the key, whether the field is
    optional, and [false] for the [else { continue }]. *)
Definition lookup_tag (field : Field) : string * bool * bool :=
  let '(s, ok) := reflect.Lookup (Tag field) "lookup" in
  if ok && negb (String.eqb s "") then
    match strings.Split s ","%char with
    | [] => ("", false, true)
    | [_] => (s, false, true)
    | p0 :: p1 :: _ => (p0, String.eqb p1 "optional", true)
    end
  else (Name field, false, false).

(** The switch on the field's type inside [if ok { ... }]: the field and
    the log afterwards, the [err] of the enclosing block, and what was
    returned from inside the switch, if anything. *)
Definition coerce (field : Field) (v fieldKey : string) (r : Reporter)
    (t : list event) : Field * list event * outcome * option error :=
  match Val field with
  | Vstring _ =>
      let '(field, t) := store field (Vstring v) t in
      (field, r fieldKey (Vstring v) t, Returned None, None)
  | Vint Tint _ => (setInt field v 64 r fieldKey t, None)
  | Vint Tint8 _ => (setInt field v 8 r fieldKey t, None)
  | Vint Tint16 _ => (setInt field v 16 r fieldKey t, None)
  | Vint Tint32 _ => (setInt field v 32 r fieldKey t, None)
  | Vint Tint64 _ => (setInt field v 64 r fieldKey t, None)
  | Vuint Tuint _ => (setUint field v 64 r fieldKey t, None)
  | Vuint Tuint8 _ => (setUint field v 8 r fieldKey t, None)
  | Vuint Tuint16 _ => (setUint field v 16 r fieldKey t, None)
  | Vuint Tuint32 _ => (setUint field v 32 r fieldKey t, None)
  | Vuint Tuint64 _ => (setUint field v 64 r fieldKey t, None)
  | Vbool _ =>
      let '(b, err) := strconv.ParseBool v in
      match err with
      | Some err =>
          (field, t, Returned None, Some (ErrNotBool v (Name field) err))
      | None =>
          let '(field, t) := store field (Vbool b) t in
          (field, r fieldKey (Vbool b) t, Returned None, None)
      end
  | Vfloat Tfloat32 _ => (setFloat field v 32 r fieldKey t, None)
  | Vfloat Tfloat64 _ => (setFloat field v 64 r fieldKey t, None)
  | Vcomplex Tcomplex64 _ _ => (setComplex field v 32 r fieldKey t, None)
  | Vcomplex Tcomplex128 _ _ => (setComplex field v 64 r fieldKey t, None)
  | Vbytes _ =>
      let '(b, err) := base64.DecodeString v in
      let '(field, t) :=
        match err with
        | Some _ => store field (Vbytes b) t
        | None => (field, t)
        end in
      (field, r fieldKey (Vbytes b) t, Returned None, None)
  | Vother _ _ => (field, t, Returned None, None)
  end.

(** The loop over the fields of [Lookup].  [val := field.Interface()]
    (line 520) panics for an unexported field. *)
Fixpoint Lookup_fields (fields : list Field) (l : Looker W) (r : Reporter)
    (w : W) (t : list event) : list Field * W * list event * outcome :=
  match fields with
  | [] => ([], w, t, Returned None)
  | field :: rest =>
      let '(fieldKey, opt, found) := lookup_tag field in
      if negb found then
        let '(rest, w, t, out) := Lookup_fields rest l r w t in
        (field :: rest, w, t, out)
      else
        let '((v, ok, err), w) := l fieldKey w in
        match err with
        | Some err =>
            (field :: rest, w, t,
             Returned (Some (ErrLookupFailed (Name field) err)))
        | None =>
            if ok then
              if negb (CanInterface field) then
                (field :: rest, w, t, Panicked Interface_panic)
              else
              let val := Val field in
              let '(field, t, out, returned) := coerce field v fieldKey r t in
              match returned, out with
              | Some e, _ => (field :: rest, w, t, Returned (Some e))
              | None, Panicked msg => (field :: rest, w, t, Panicked msg)
              | None, Returned (Some err) =>
                  (field :: rest, w, t,
                   Returned (Some (ErrNotType v (Name field) (typeName val) err)))
              | None, Returned None =>
                  let '(rest, w, t, out) := Lookup_fields rest l r w t in
                  (field :: rest, w, t, out)
              end
            else if negb opt then
              (field :: rest, w, t,
               Returned (Some (ErrMissingRequired (Name field))))
            else
              let t := r fieldKey (Vstring v) t in
              let '(rest, w, t, out) := Lookup_fields rest l r w t in
              (field :: rest, w, t, out)
        end
  end.

(** [func Lookup(e interface{}, l Looker, r Reporter) error]. *)
Definition Lookup (e : Arg) (l : Looker W) (r : option Reporter)
    (w : W) (t : list event) : Arg * W * list event * outcome :=
  match e with
  | NotPointer => (NotPointer, w, t, Returned (Some ErrNeedsPointer))
  | NilPointer => (NilPointer, w, t, Returned (Some ErrNeedsPointer))
  | Pointer fields =>
      let '(fields, w, t, out) := Lookup_fields fields l (orDiscard r) w t in
      (Pointer fields, w, t, out)
  end.

End R3.
End R3.

(** ** Notions used to state the properties *)

Section Declined.

Context {W : Type}.

(** [declined s l w w']: called one after the other with [s], starting
    in world [w], every source of [l] gives a result that the loop of
    [lookupKey] does not stop at, and the last one leaves world [w']. *)
Inductive declined (s : string) : list (Looker W) -> W -> W -> Prop :=
| declined_nil : forall w, declined s [] w w
| declined_cons : forall e l w r w1 w2,
    e s w = (r, w1) ->
    accepted r = false ->
    declined s l w1 w2 ->
    declined s (e :: l) w w2.

End Declined.

(** The 6-bit value [val>>k&0x3F] that [EncodeToString] looks up in the
    alphabet. *)
Definition sextet (val k : Z) : Z := Z.land (Z.shiftr val k) 63.

(** The types of [R1]'s switch that go to [fmt.Sscanln]. *)
Definition scanned (v : value) : bool :=
  match v with
  | Vstring _ | Vbytes _ => false
  | _ => true
  end.

(** Whether a tag system is used for a field: the test
    [s, ok := tag.Lookup(def.tag); ok && s != ""]. *)
Definition matches (tg : reflect.StructTag) (def : tagDef) : bool :=
  let '(s, ok) := reflect.Lookup tg (tag def) in
  ok && negb (String.eqb s "").

(** Takes apart the [match] and [let] of a hypothesis, innermost first. *)
Ltac split_matches H :=
  repeat match type of H with
         | context [match ?x with _ => _ end] => destruct x eqn:?
         end.

(** ** Concrete sources, fields and parsers for the examples *)

Module Fixtures.

(** A source that records its name in the world (the list of the sources
    called so far) and answers [r] whatever the key. *)
Definition logged (name : string) (r : result) : Looker (list string) :=
  fun _ w => (r, (w ++ [name])%list).

(** [os.LookupEnv] over an environment given as its list of pairs. *)
Fixpoint LookupEnv (environ : list (string * string)) (key : string)
  : string * bool :=
  match environ with
  | [] => ("", false)
  | (k, v) :: rest => if String.eqb k key then (v, true) else LookupEnv rest key
  end.

(** [var Env = NoError{F: os.LookupEnv}], the world being the
    environment. *)
Definition Env : Looker (list (string * string)) :=
  NoError (fun key w => (LookupEnv w key, w)).

(** [NoBool{F}] for an [F] that reads the environment and never fails. *)
Definition Getenv : Looker (list (string * string)) :=
  NoBool (fun key w => ((fst (LookupEnv w key), None), w)).

(** A scanner that knows two inputs only, for [bool] fields. *)
Definition scan_bool (s : string) (old : value)
  : Z * option value * option error :=
  match old with
  | Vbool _ =>
      if String.eqb s (String "f" (String "010" ""))
      then (1, Some (Vbool false), None)
      else if String.eqb s (String "1" (String "010" ""))
      then (1, Some (Vbool true), None)
      else (0, None, Some (errorString "syntax error scanning boolean"))
  | _ => (0, None, Some (errorString "unsupported"))
  end.

(** Number parsers that accept the decimal digits [3] and [4] only. *)
Definition parse_int (s : string) (base bits : Z) : Z * option error :=
  if String.eqb s "3" then (3, None)
  else if String.eqb s "4" then (4, None)
  else (0, Some (NumError "ParseInt" s)).

Definition parse_float (s : string) (bits : Z) : float * option error :=
  if String.eqb s "3" then (3%float, None)
  else if String.eqb s "4" then (4%float, None)
  else (0%float, Some (NumError "ParseFloat" s)).

End Fixtures.

(** ** The other sources of the package *)

(** [type Map map[string]string]. *)
Definition Map : Type := gmap string string.

Section OtherSources.

Context {W : Type}.

(** [func (l Map) LookupKey(s)]: [v, b = l[s]; return v, b, nil]. *)
Definition Map_LookupKey (l : Map) : Looker W :=
  fun s w =>
    match l !! s with
    | Some v => ((v, true, None), w)
    | None => (("", false, None), w)
    end.

(** The loop of [formLooker.LookupKey] over the values of a key:
    [s := "1"; for _, val := range v { if val != "" { s = val; break } }]. *)
Fixpoint form_value (v : list string) : string :=
  match v with
  | [] => "1"
  | val :: rest => if String.eqb val "" then form_value rest else val
  end.

(** [func (l *formLooker) LookupKey(k)] ([src/form.go]).  [ParseForm] is
    [l.ParseForm()] together with the [l.Form] it leaves, a
    [map[string][]string]; [wrap] is the wrapping of its error
    ([epp.Wrap(err, "ParseForm failed")] in the first revision,
    [xerrors.Errorf("ParseForm failed", err)] in the second). *)
Definition formLooker_LookupKey
    (ParseForm : W -> (option error * gmap string (list string)) * W)
    (wrap : error -> error) : Looker W :=
  fun k w =>
    let '((err, Form), w) := ParseForm w in
    match err with
    | Some err => (("", false, Some (wrap err)), w)
    | None =>
        match Form !! k with
        | None => (("", false, None), w)
        | Some v => ((form_value v, true, None), w)
        end
    end.

End OtherSources.

(** ** [jsonLooker] and [jsonRequestLooker] ([src/json_file.go]) *)

Section JSON.

Context {W : Type}.

(** The decoded JSON values ([interface{}]), the open file, and
    [fmt.Sprint] on a decoded value. *)
Context {J File : Type}.
Variable Sprint : J -> string.

(** [os.Open(l.filename)], [json.NewDecoder(f).Decode(&l.data)] with the
    map [l.data] holds afterwards ([None] for a nil map), and [f.Close()]. *)
Variable Open : string -> W -> (File + error) * W.
Variable Decode : File -> gmap string J -> W
                  -> (option (gmap string J) * option error) * W.
Variable Close : File -> W -> W.

(** [type jsonLooker struct]; the mutex guards concurrent first calls and
    has no part in a sequential run. *)
Record jsonLooker : Type := mkJsonLooker {
  filename : string;
  data : option (gmap string J)
}.

(** [func NewJSONFile(filename string) Looker]. *)
Definition NewJSONFile (name : string) : jsonLooker := mkJsonLooker name None.

(** The end of both [LookupKey] methods:
    [v, ok := l.data[k]; if !ok { return "", false, nil };
     return fmt.Sprint(v), true, nil]; a nil map has no key. *)
Definition json_get (d : option (gmap string J)) (k : string) : result :=
  match d with
  | None => ("", false, None)
  | Some m =>
      match m !! k with
      | None => ("", false, None)
      | Some v => (Sprint v, true, None)
      end
  end.

(** [func (l *jsonLooker) LookupKey(k)]: the result, the looker and the
    world afterwards. *)
Definition jsonLooker_LookupKey (l : jsonLooker) (k : string) (w : W)
  : result * jsonLooker * W :=
  match data l with
  | None =>
      let l := mkJsonLooker (filename l) (Some ∅) in
      let '(f, w) := Open (filename l) w in
      match f with
      | inr err => (("", false, Some err), l, w)
      | inl f =>
          let '((d, err), w) := Decode f ∅ w in
          let l := mkJsonLooker (filename l) d in
          let w := Close f w in
          match err with
          | Some err => (("", false, Some err), l, w)
          | None => (json_get (data l) k, l, w)
          end
      end
  | Some _ => (json_get (data l) k, l, w)
  end.

(** [type jsonRequestLooker struct]: the request body in place of the
    file. *)
Record jsonRequestLooker : Type := mkJsonRequestLooker {
  Body : File;
  rdata : option (gmap string J)
}.

(** [func NewJSONRequest(req *http.Request) Looker]. *)
Definition NewJSONRequest (body : File) : jsonRequestLooker :=
  mkJsonRequestLooker body None.

(** [func (l *jsonRequestLooker) LookupKey(k)]. *)
Definition jsonRequestLooker_LookupKey (l : jsonRequestLooker) (k : string)
    (w : W) : result * jsonRequestLooker * W :=
  match rdata l with
  | None =>
      let '((d, err), w) := Decode (Body l) ∅ w in
      let l := mkJsonRequestLooker (Body l) d in
      let w := Close (Body l) w in
      match err with
      | Some err => (("", false, Some err), l, w)
      | None => (json_get (rdata l) k, l, w)
      end
  | Some _ => (json_get (rdata l) k, l, w)
  end.

End JSON.


(** ** [ArgsLooker] ([src/unnamed/part_000], second part) *)

(** [strings.HasPrefix] and what follows the prefix. *)
Fixpoint strip_prefix (prefix s : string) : option string :=
  match prefix, s with
  | EmptyString, _ => Some s
  | String a p, String b s' => if Ascii.eqb a b then strip_prefix p s' else None
  | String _ _, EmptyString => None
  end.

(** The text before the first ['='] and, if there is one, the text after
    it. *)
Fixpoint cut_eq (s : string) : string * option string :=
  match s with
  | EmptyString => (EmptyString, None)
  | String c rest =>
      if Ascii.eqb c "="%char then (EmptyString, Some rest)
      else let '(name, val) := cut_eq rest in (String c name, val)
  end.

Definition has_newline (s : string) : bool :=
  existsb (Ascii.eqb "010"%char) (list_ascii_of_string s).

(** [l.rex.FindStringSubmatch(arg)] for the expression that [NewArgs]
    compiles (the quoted prefix after [^], a group of any number of
    characters other than ['='], an optional ['='] group followed by a
    group of any number of characters, then [$]):
    the argument must start with the prefix; the first group is the text
    up to the first ['='] (a negated class matches a newline too); when
    there is an ['='] the second group is ["="] and the third the rest,
    which [.] matches only if it has no newline ([$] is the end of the
    text).  A match has four elements, groups left out being empty;
    [None] is the nil slice of no match. *)
Definition FindStringSubmatch (prefix arg : string) : option (list string) :=
  match strip_prefix prefix arg with
  | None => None
  | Some rest =>
      match cut_eq rest with
      | (name, None) => Some [arg; name; ""; ""]
      | (name, Some val) =>
          if has_newline val then None else Some [arg; name; "="; val]
      end
  end.

(** [type ArgsLooker struct]; [rex] is kept as the prefix it was compiled
    from. *)
Record ArgsLooker : Type := mkArgsLooker {
  args : list string;
  rex : string;
  extraArgs : list string;
  adata : option Map
}.

(** [func NewArgs(prefix string, args []string) *ArgsLooker]. *)
Definition NewArgs (prefix : string) (a : list string) : ArgsLooker :=
  mkArgsLooker a prefix [] None.

(** [func (l *ArgsLooker) ExtraArgs() []string]. *)
Definition ExtraArgs (l : ArgsLooker) : list string := extraArgs l.

(** The loop [for _, arg := range l.args] of [LookupKey]: [extra] and [d]
    are [l.extraArgs] and [l.data]. *)
Fixpoint Args_loop (prefix : string) (a : list string) (extra : list string)
    (d : Map) : list string * Map :=
  match a with
  | [] => (extra, d)
  | arg :: rest =>
      match FindStringSubmatch prefix arg with
      | Some [_; r1; r2; r3] =>
          let val := if String.eqb r2 "" then "1" else r3 in
          Args_loop prefix rest extra (<[r1 := val]> d)
      | _ => Args_loop prefix rest (extra ++ [arg])%list d
      end
  end.

(** [func (l *ArgsLooker) LookupKey(k)]: the result and the looker
    afterwards. *)
Definition ArgsLooker_LookupKey (l : ArgsLooker) (k : string)
  : result * ArgsLooker :=
  let l :=
    match adata l with
    | None =>
        let '(extra, d) := Args_loop (rex l) (args l) (extraArgs l) ∅ in
        mkArgsLooker (args l) (rex l) extra (Some d)
    | Some _ => l
    end in
  (match adata l with
   | Some d =>
       match d !! k with
       | Some v => (v, true, None)
       | None => ("", false, None)
       end
   | None => ("", false, None)
   end, l).

(** ** The reporters ([src/unnamed/part_003], lines 307-392) *)

(** A [Reporter] whose effect is on a state of type [S]; the [Reporter] of
    the passes above is [ReporterOn (list event)]. *)
Definition ReporterOn (S : Type) : Type := string -> value -> S -> S.

Section Reporters.

Context {S : Type}.

(** [fmt.Sprint(e)], which is also how [%v] prints [e]. *)
Variable Sprint : value -> string.

(** [func (r FilterSecretsReporter) Report(key, e)]: [inner] is the
    embedded [Reporter], [MatchString] the embedded [*regexp.Regexp];
    [e] is [None] for a nil interface. *)
Definition FilterSecretsReporter_Report (inner : ReporterOn S)
    (MatchString : string -> bool) (key : string) (e : option value)
  : S -> S :=
  let v := match e with
           | Some e => Sprint e
           | None => ""
           end in
  let v := if MatchString key
           then (if String.eqb v "" then "(empty)" else "(not empty)")
           else v in
  inner key (Vstring v).

(** [FilterSecretsReporter] as a [Reporter]: the passes never report a nil
    interface. *)
Definition FilterSecretsReporter (inner : ReporterOn S)
    (MatchString : string -> bool) : ReporterOn S :=
  fun key e => FilterSecretsReporter_Report inner MatchString key (Some e).

(** [func (r DupReporter) Report(key, e)]:
    [for _, v := range r { v.Report(key, e) }]. *)
Definition DupReporter (r : list (ReporterOn S)) : ReporterOn S :=
  fun key e s => fold_left (fun s v => v key e s) r s.

End Reporters.

Section StatefulReporters.

Variable Sprint : value -> string.

(** [func (r FmtReporter) Report(key, e)]:
    [fmt.Fprintf(r.Writer, "%s%s=%v\n", r.Prefix, key, e)], the state being
    what has been written. *)
Definition FmtReporter (Prefix : string) : ReporterOn string :=
  fun key e out =>
    out ++ Prefix ++ key ++ "=" ++ Sprint e ++ String "010"%char "".

(** [func NewMapReporter() MapReporter] and
    [func (r MapReporter) Map() Map]: the state is [r.dest]. *)
Definition NewMapReporter : Map := ∅.

(** [func (r MapReporter) Report(key, e)]: [r.dest[key] = fmt.Sprint(e)]. *)
Definition MapReporter : ReporterOn Map :=
  fun key e dest => <[key := Sprint e]> dest.

End StatefulReporters.

(** The calls of [Report] in a log, in order. *)
Fixpoint reports (t : list event) : list (string * value) :=
  match t with
  | [] => []
  | EvReport key e :: rest => (key, e) :: reports rest
  | EvSet _ _ :: rest => reports rest
  end.

(** The state a reporter ends in when it receives the given calls. *)
Definition replay {S : Type} (r : ReporterOn S) (calls : list (string * value))
    (s : S) : S :=
  fold_left (fun s c => r (fst c) (snd c) s) calls s.

(** ** More concrete values for the examples *)

Module Samples.

(** A source that fails whatever the key, and records its name. *)
Definition failing (name : string) : Looker (list string) :=
  Fixtures.logged name ("", false, Some (errorString "unreadable")).

(** The defaults of the package's tests. *)
Definition defaults : Map := {[ "C" := "-4" ]}.

End Samples.

Module Samples2.

(** A request whose form has been parsed: the world is the form, as
    [ParseForm] leaves it in [l.Form]. *)
Definition parsed : gmap string (list string) -> (option error * gmap string (list string)) * gmap string (list string) :=
  fun form => ((None, form), form).

(** The form of the query [?debug&name=&name=x]. *)
Definition form : gmap string (list string) :=
  {[ "debug" := [""]; "name" := [""; "x"] ]}.

(** A file system in which no file can be opened; the world counts the
    attempts. *)
Definition no_file : string -> nat -> (unit + error) * nat :=
  fun _ n => (inr (errorString "no such file"), S n).

(** A file system whose files all hold [{"B": "2"}]; the world counts
    the files opened. *)
Definition one_file : string -> nat -> (unit + error) * nat :=
  fun _ n => (inl tt, S n).

Definition decode_B : unit -> gmap string string -> nat
                      -> (option (gmap string string) * option error) * nat :=
  fun _ d n => ((Some (<["B" := "2"]> d), None), n).

Definition close : unit -> nat -> nat := fun _ n => n.

End Samples2.

(** ** Notions used to state the further properties *)

(** What an argument contributes to [l.data]: the key [res[1]] and the
    value, [res[3]] or ["1"] when [res[2]] is empty; [None] for an
    argument that is not of the looker's form. *)
Definition arg_entry (prefix arg : string) : option (string * string) :=
  match FindStringSubmatch prefix arg with
  | Some [_; r1; r2; r3] => Some (r1, if String.eqb r2 "" then "1" else r3)
  | _ => None
  end.

(** Whether an argument is of the looker's form. *)
Definition is_arg (prefix arg : string) : bool :=
  match arg_entry prefix arg with
  | Some _ => true
  | None => false
  end.

(** Whether a string has the character [c]. *)
Definition has_char (c : ascii) (s : string) : bool :=
  existsb (Ascii.eqb c) (list_ascii_of_string s).

(** [masked MatchString t]: every call of [Report] in the log [t] whose
    key the expression matches carries one of the two markers. *)
Definition masked (MatchString : string -> bool) (t : list event) : Prop :=
  forall key e,
    In (EvReport key e) t -> MatchString key = true ->
    e = Vstring "(empty)" \/ e = Vstring "(not empty)".

(** The [bitSize] that the switch of [Lookup] (lines 526-565) hands to
    the setter for each numeric type. *)
Definition int_bits (ty : intType) : Z :=
  match ty with
  | Tint => 64 | Tint8 => 8 | Tint16 => 16 | Tint32 => 32 | Tint64 => 64
  end.

Definition uint_bits (ty : uintType) : Z :=
  match ty with
  | Tuint => 64 | Tuint8 => 8 | Tuint16 => 16 | Tuint32 => 32 | Tuint64 => 64
  end.

Definition float_bits (ty : floatType) : Z :=
  match ty with
  | Tfloat32 => 32 | Tfloat64 => 64
  end.

(** Whether a string has ASCII characters only. *)
Definition is_ascii (s : string) : bool :=
  forallb (fun c => (N_of_ascii c <? 128)%N) (list_ascii_of_string s).

(** [agrees_on_bool Sscanln]: on ASCII text and for a [bool] field,
    [Sscanln] is [fmt.Sscanln_bool]. *)
Definition agrees_on_bool
    (Sscanln : string -> value -> Z * option value * option error) : Prop :=
  forall (s : string) (old : bool),
    is_ascii s = true ->
    Sscanln s (Vbool old)
    = let '(n, b, err) := fmt.Sscanln_bool (fmt.runes s) in
      (n, option_map Vbool b, err).

(** The upper-case letter of a lower-case letter, and the spellings of a
    lower-case word in upper-case and lower-case letters. *)
Definition upper (c : ascii) : ascii :=
  if ((97 <=? N_of_ascii c) && (N_of_ascii c <=? 122))%N
  then ascii_of_N (N_of_ascii c - 32) else c.

Fixpoint spellings (word : string) : list string :=
  match word with
  | EmptyString => [EmptyString]
  | String c rest =>
      flat_map (fun v => [String c v; String (upper c) v]) (spellings rest)
  end.

Module Samples3.

(** [fmt.Sprint] on the strings and booleans of the examples. *)
Definition sprint (e : value) : string :=
  match e with
  | Vstring s => s
  | Vbool true => "true"
  | Vbool false => "false"
  | _ => "?"
  end.

(** [regexp.MustCompile(`.*SECRET.*`).MatchString] on the keys of the
    package's test. *)
Definition secret (key : string) : bool :=
  String.eqb key "ANY_SECRET" || String.eqb key "SECRET_AS_WELL".

End Samples3.

Module Samples4.

(** A scanner that knows [bool] fields only, and ASCII text: there it is
    [fmt.Sscanln_bool]. *)
Definition Sscanln (s : string) (old : value) : Z * option value * option error :=
  match old with
  | Vbool _ =>
      let '(n, b, err) := fmt.Sscanln_bool (fmt.runes s) in
      (n, option_map Vbool b, err)
  | _ => (0, None, Some (errorString "unsupported"))
  end.

End Samples4.

(** * Properties *)

(** [Interface()] can be called on exported fields. *)
Lemma CanInterface_exported (f : Field) : PkgPath f = "" -> CanInterface f = true.
Proof. unfold CanInterface. now intros ->. Qed.

(** ** The sequence resolver *)

Section SourcesFacts.

Context {W : Type}.
Implicit Types (l : list (Looker W)) (w : W) (r : result).

Lemma accepted_true_iff r :
  accepted r = true <-> exists v, r = (v, true, None).
Proof.
  destruct r as [[v b] [err|]]; simpl; split.
  - discriminate.
  - intros [v' H]; discriminate.
  - intros ->; now exists v.
  - intros [v' H]; now inversion H.
Qed.

(** Sources that decline only hand their world on; the loop goes on with
    the result of the last of them. *)
Lemma lookupKey_loop_declined s pre : forall rest cur w w1,
  declined s pre w w1 ->
  exists cur',
    lookupKey_loop s (pre ++ rest)%list cur w = lookupKey_loop s rest cur' w1
    /\ (pre = [] -> cur' = cur)
    /\ (forall pre' e w0, pre = (pre' ++ [e])%list -> declined s pre' w w0 ->
          cur' = fst (e s w0)).
Proof.
  induction pre as [|e pre IH]; intros rest cur w w1 Hd.
  - inversion Hd; subst. exists cur; repeat split; trivial.
    intros pre' e w0 H; now destruct pre'.
  - inversion Hd as [|e' l' w' r wa wb He Hacc Hrest]; subst.
    destruct (IH rest r wa w1 Hrest) as (cur' & Heq & Hnil & Hlast).
    exists cur'; split; [|split].
    + simpl. rewrite He, Hacc. exact Heq.
    + discriminate.
    + intros pre' e0 w0 Hpre Hd'.
      destruct pre' as [|e1 pre'']; simpl in Hpre; inversion Hpre; subst.
      * rewrite (Hnil eq_refl). inversion Hd'; subst. now rewrite He.
      * inversion Hd' as [|e2 l2 w2 r2 wc wd He2 Hacc2 Hrest2]; subst.
        rewrite He in He2; inversion He2; subst.
        now apply (Hlast pre'' e0 w0).
Qed.

Lemma declined_deterministic s l : forall w w1 w2,
  declined s l w w1 -> declined s l w w2 -> w1 = w2.
Proof.
  induction l as [|e l IH]; intros w w1 w2 H1 H2;
    inversion H1; inversion H2; subst; trivial.
  match goal with
  | Ha : e s w = _, Hb : e s w = _ |- _ => rewrite Ha in Hb; inversion Hb; subst
  end.
  eauto.
Qed.

(** Every list of sources is in one of the three cases: empty, a first
    source that is accepted, or all sources declining. *)
Lemma lookupKey_cases s l : forall w,
  l = []
  \/ (exists pre e post w1 v w2,
        l = (pre ++ e :: post)%list /\ declined s pre w w1
        /\ e s w1 = ((v, true, None), w2))
  \/ (exists pre e w1 r w2,
        l = (pre ++ [e])%list /\ declined s pre w w1
        /\ e s w1 = (r, w2) /\ accepted r = false).
Proof.
  induction l as [|e l IH]; intros w; [now left|right].
  destruct (e s w) as [r w1] eqn:He. destruct (accepted r) eqn:Hacc.
  - left. apply accepted_true_iff in Hacc as [v ->].
    exists [], e, l, w, v, w1. repeat split; trivial. apply declined_nil.
  - destruct (IH w1) as [-> | [H | H]].
    + right. exists [], e, w, r, w1. repeat split; trivial. apply declined_nil.
    + left. destruct H as (pre & e' & post & w2 & v & w3 & -> & Hd & He').
      exists (e :: pre), e', post, w2, v, w3. repeat split; trivial.
      now apply (declined_cons s e pre w r w1 w2).
    + right. destruct H as (pre & e' & w2 & r' & w3 & -> & Hd & He' & Hacc').
      exists (e :: pre), e', w2, r', w3. repeat split; trivial.
      now apply (declined_cons s e pre w r w1 w2).
Qed.

End SourcesFacts.

(** C1.  [lookupKey] (and [Seq.LookupKey], the same loop) calls the sources
    in list order, each in the world the one before left: for the empty
    list it returns ["", false, nil]; when the sources of [pre] decline and
    the next one, [e], answers [found = true] with a nil error, it returns
    that answer in the world [e] left, so that no later source is called;
    and when every source declines it returns the answer of the last.
    Every list of sources is in one of these three cases. *)
Theorem lookupKey_first_accepted_else_last :
  forall (W : Type) (s : string) (w : W),
    (lookupKey s [] w = (("", false, None), w)
     /\ Seq_LookupKey [] s w = (("", false, None), w))
    /\ (forall pre e post w1 v w2,
          declined s pre w w1 ->
          e s w1 = ((v, true, None), w2) ->
          lookupKey s (pre ++ e :: post)%list w = ((v, true, None), w2)
          /\ Seq_LookupKey (pre ++ e :: post)%list s w = ((v, true, None), w2))
    /\ (forall pre e w1 r w2,
          declined s pre w w1 ->
          e s w1 = (r, w2) ->
          accepted r = false ->
          lookupKey s (pre ++ [e])%list w = (r, w2)
          /\ Seq_LookupKey (pre ++ [e])%list s w = (r, w2))
    /\ (forall l : list (Looker W),
          l = []
          \/ (exists pre e post w1 v w2,
                l = (pre ++ e :: post)%list /\ declined s pre w w1
                /\ e s w1 = ((v, true, None), w2))
          \/ (exists pre e w1 r w2,
                l = (pre ++ [e])%list /\ declined s pre w w1
                /\ e s w1 = (r, w2) /\ accepted r = false)).
Proof.
  intros W s w. split; [split; reflexivity|].
  split; [|split; [|intros l; apply lookupKey_cases]].
  - intros pre e post w1 v w2 Hd He.
    unfold Seq_LookupKey, lookupKey.
    destruct (lookupKey_loop_declined s pre (e :: post) ("", false, None) w w1 Hd)
      as (cur' & Heq & _).
    rewrite Heq. simpl. rewrite He. simpl. split; reflexivity.
  - intros pre e w1 r w2 Hd He Hacc.
    unfold Seq_LookupKey, lookupKey.
    destruct (lookupKey_loop_declined s pre [e] ("", false, None) w w1 Hd)
      as (cur' & Heq & _).
    rewrite Heq. simpl. rewrite He, Hacc. split; reflexivity.
Qed.

(** The spec's scenario: [A] lacks the key, [B] has ["x"], [C] is never
    consulted. *)
Lemma lookupKey_first_accepted_else_last_witness :
  lookupKey "K"
    [Fixtures.logged "A" ("", false, None);
     Fixtures.logged "B" ("x", true, None);
     Fixtures.logged "C" ("y", true, None)] []
  = (("x", true, None), ["A"; "B"]).
Proof.
  apply (proj1 (proj2 (lookupKey_first_accepted_else_last (list string) "K" []))
           [Fixtures.logged "A" ("", false, None)]
           (Fixtures.logged "B" ("x", true, None))
           [Fixtures.logged "C" ("y", true, None)] ["A"] "x" ["A"; "B"]).
  - eapply declined_cons; [reflexivity | reflexivity | apply declined_nil].
  - reflexivity.
Defined.

(** When the last source fails, its error is what the caller sees. *)
Example lookupKey_last_error :
  lookupKey "K"
    [Fixtures.logged "A" ("", false, None);
     Fixtures.logged "B" ("", false, Some (errorString "unreadable"))] []
  = (("", false, Some (errorString "unreadable")), ["A"; "B"]).
Proof. reflexivity. Qed.

(** C10.  [NoBool{F}.LookupKey(k)] returns [found] equal to [err != nil]:
    [(v, false, nil)] when [F] succeeds and [(v, true, err)] when it fails
    with [err]; neither is a result the loop of [lookupKey] stops at, which
    goes on to the next source. *)
Theorem NoBool_found_is_error :
  forall (W : Type) (F : string -> W -> (string * option error) * W)
         (k : string) (w : W) (v : string) (err : option error) (w' : W),
    F k w = ((v, err), w') ->
    (err = None -> NoBool F k w = ((v, false, None), w'))
    /\ (forall e, err = Some e -> NoBool F k w = ((v, true, Some e), w'))
    /\ accepted (fst (NoBool F k w)) = false
    /\ (forall rest cur,
          lookupKey_loop k (NoBool F :: rest) cur w
          = lookupKey_loop k rest (fst (NoBool F k w)) w').
Proof.
  intros W F k w v err w' HF.
  unfold NoBool. simpl. rewrite HF.
  destruct err as [e|]; simpl; repeat split; try discriminate; trivial.
  intros e' H; now inversion H.
Qed.

Lemma NoBool_found_is_error_witness :
  Fixtures.Getenv "HOME" [("HOME", "/root")] = (("/root", false, None), [("HOME", "/root")]).
Proof.
  apply (proj1 (NoBool_found_is_error _
                  (fun key w => ((fst (Fixtures.LookupEnv w key), None), w))
                  "HOME" [("HOME", "/root")] "/root" None [("HOME", "/root")]
                  eq_refl) eq_refl).
Defined.

(** ** Base64: the decoder undoes the encoder *)

Lemma byte_to_Z_range (b : byte) : 0 <= byte_to_Z b < 256.
Proof.
  unfold byte_to_Z. pose proof (Byte.to_N_bounded b). lia.
Qed.

Lemma byte_of_to_Z (b : byte) : byte_of_Z (byte_to_Z b) = b.
Proof.
  unfold byte_of_Z. rewrite Z.mod_small by apply byte_to_Z_range.
  unfold byte_to_Z. rewrite N2Z.id, Byte.of_to_N. reflexivity.
Qed.

Lemma byte_of_Z_mod (z : Z) : byte_of_Z (z mod 256) = byte_of_Z z.
Proof. unfold byte_of_Z. now rewrite Z.mod_mod. Qed.

Lemma lor_disjoint (h lo k : Z) :
  0 <= k -> 0 <= lo < 2 ^ k -> Z.lor (h * 2 ^ k) lo = h * 2 ^ k + lo.
Proof.
  intros Hk Hlo.
  rewrite <- Z.lxor_lor, <- Z.add_nocarry_lxor; trivial;
  apply Z.bits_inj'; intros i Hi; rewrite Z.land_spec, Z.bits_0;
  rewrite <- Z.shiftl_mul_pow2 by lia;
  destruct (Z.lt_ge_cases i k) as [Hlt | Hge].
  1,3: rewrite Z.shiftl_spec_low by lia; reflexivity.
  all: rewrite <- (Z.mod_small lo (2 ^ k)) by lia;
       rewrite Z.mod_pow2_bits_high by lia; apply andb_false_r.
Qed.

(** The 24-bit group [EncodeToString] builds from three bytes. *)
Lemma group_value (a b c : Z) :
  0 <= a < 256 -> 0 <= b < 256 -> 0 <= c < 256 ->
  Z.lor (Z.lor (Z.shiftl a 16) (Z.shiftl b 8)) c = a * 65536 + b * 256 + c.
Proof.
  intros Ha Hb Hc.
  rewrite !Z.shiftl_mul_pow2 by lia.
  rewrite (lor_disjoint a (b * 2 ^ 8) 16) by lia.
  replace (a * 2 ^ 16 + b * 2 ^ 8) with ((a * 2 ^ 8 + b) * 2 ^ 8) by lia.
  rewrite lor_disjoint by lia. lia.
Qed.


Lemma sextet_eq (val k : Z) : 0 <= k -> sextet val k = (val / 2 ^ k) mod 64.
Proof.
  intros Hk. unfold sextet. change 63 with (Z.ones 6).
  now rewrite Z.land_ones, Z.shiftr_div_pow2 by lia.
Qed.

Lemma sextet_range (val k : Z) : 0 <= k -> 0 <= sextet val k < 64.
Proof. intros Hk. rewrite sextet_eq by trivial. apply Z.mod_pos_bound. lia. Qed.

(** Four 6-bit values put together as [decodeQuantum] does. *)
Lemma quantum_value (s0 s1 s2 s3 : Z) :
  0 <= s0 < 64 -> 0 <= s1 < 64 -> 0 <= s2 < 64 -> 0 <= s3 < 64 ->
  Z.lor (Z.lor (Z.lor (Z.shiftl s0 18) (Z.shiftl s1 12)) (Z.shiftl s2 6)) s3
  = s0 * 262144 + s1 * 4096 + s2 * 64 + s3.
Proof.
  intros H0 H1 H2 H3.
  rewrite !Z.shiftl_mul_pow2 by lia.
  rewrite (lor_disjoint s0 (s1 * 2 ^ 12) 18) by lia.
  replace (s0 * 2 ^ 18 + s1 * 2 ^ 12) with ((s0 * 2 ^ 6 + s1) * 2 ^ 12) by lia.
  rewrite (lor_disjoint _ (s2 * 2 ^ 6) 12) by lia.
  replace ((s0 * 2 ^ 6 + s1) * 2 ^ 12 + s2 * 2 ^ 6)
    with ((s0 * 2 ^ 12 + s1 * 2 ^ 6 + s2) * 2 ^ 6) by lia.
  rewrite lor_disjoint by lia. lia.
Qed.

Lemma sextets_value (val : Z) :
  0 <= val < 16777216 ->
  sextet val 18 * 262144 + sextet val 12 * 4096 + sextet val 6 * 64 + Z.land val 63
  = val.
Proof.
  intros Hv. rewrite !sextet_eq by lia.
  change 63 with (Z.ones 6). rewrite Z.land_ones by lia.
  change (2 ^ 18) with 262144; change (2 ^ 12) with 4096; change (2 ^ 6) with 64.
  Z.div_mod_to_equations. lia.
Qed.

Lemma decodeMap_encode (i : Z) :
  0 <= i < 64 -> base64.decodeMap (base64.encode i) = i.
Proof.
  intros Hi.
  assert (H : forall n, (n < 64)%nat ->
            base64.decodeMap (base64.encode (Z.of_nat n)) = Z.of_nat n).
  { intros n Hn. do 64 (destruct n as [|n]; [reflexivity|]). lia. }
  rewrite <- (Z2Nat.id i) by lia. apply H. lia.
Qed.

Lemma decode_encoded_char (i : Z) (rest : string) (dbuf : list Z) (dst : list byte) :
  0 <= i < 64 ->
  base64.decode (String (base64.encode i) rest) dbuf dst
  = if (List.length (dbuf ++ [i]) =? 4)%nat
    then base64.decode rest [] (dst ++ base64.quantum (dbuf ++ [i]))
    else base64.decode rest (dbuf ++ [i])%list dst.
Proof.
  intros Hi. cbn [base64.decode].
  rewrite (decodeMap_encode i Hi).
  destruct (Z.eqb_spec i 255) as [E|_]; [lia|reflexivity].
Qed.

(** The bytes [decodeQuantum] gives back from the first [S n] 6-bit values
    of a 24-bit group whose other 6-bit values are zero. *)
Lemma quantum_of_sextets (val : Z) (n : nat) :
  0 <= val < 16777216 ->
  (1 <= n <= 3)%nat ->
  ((n < 3)%nat -> Z.land val 63 = 0) ->
  ((n < 2)%nat -> sextet val 6 = 0) ->
  base64.quantum
    (firstn (S n) [sextet val 18; sextet val 12; sextet val 6; Z.land val 63])
  = firstn n [byte_of_Z (Z.shiftr val 16); byte_of_Z (Z.shiftr val 8); byte_of_Z val].
Proof.
  intros Hv Hn H3 H2.
  assert (Hl : 0 <= Z.land val 63 < 64).
  { change 63 with (Z.ones 6). rewrite Z.land_ones by lia.
    apply Z.mod_pos_bound. lia. }
  assert (E : forall s2 s3, s2 = sextet val 6 -> s3 = Z.land val 63 ->
            Z.lor (Z.lor (Z.lor (Z.shiftl (sextet val 18) 18)
                                (Z.shiftl (sextet val 12) 12))
                         (Z.shiftl s2 6)) s3 = val).
  { intros s2 s3 -> ->.
    rewrite quantum_value; try apply sextet_range; try lia.
    now apply sextets_value. }
  destruct n as [|[|[|[|n]]]]; try (exfalso; lia); unfold base64.quantum;
    cbn [firstn nth List.length Nat.sub]; rewrite E; trivial;
    solve [ symmetry; apply H2; lia | symmetry; apply H3; lia ].
Qed.

(** The three bytes of a 24-bit group. *)
Lemma group_bytes (a b c : byte) :
  let val := byte_to_Z a * 65536 + byte_to_Z b * 256 + byte_to_Z c in
  byte_of_Z (Z.shiftr val 16) = a
  /\ byte_of_Z (Z.shiftr val 8) = b
  /\ byte_of_Z val = c.
Proof.
  intros val. subst val.
  pose proof (byte_to_Z_range a) as Ha.
  pose proof (byte_to_Z_range b) as Hb.
  pose proof (byte_to_Z_range c) as Hc.
  rewrite !Z.shiftr_div_pow2 by lia.
  change (2 ^ 16) with 65536. change (2 ^ 8) with 256.
  rewrite <- (byte_of_Z_mod (_ / 256)), <- (byte_of_Z_mod (_ + byte_to_Z c)).
  replace ((byte_to_Z a * 65536 + byte_to_Z b * 256 + byte_to_Z c) / 65536)
    with (byte_to_Z a) by (Z.div_mod_to_equations; lia).
  replace (((byte_to_Z a * 65536 + byte_to_Z b * 256 + byte_to_Z c) / 256) mod 256)
    with (byte_to_Z b) by (Z.div_mod_to_equations; lia).
  replace ((byte_to_Z a * 65536 + byte_to_Z b * 256 + byte_to_Z c) mod 256)
    with (byte_to_Z c) by (Z.div_mod_to_equations; lia).
  now rewrite !byte_of_to_Z.
Qed.

Lemma list_ind3 {A : Type} (P : list A -> Prop) :
  P [] -> (forall a, P [a]) -> (forall a b, P [a; b]) ->
  (forall a b c l, P l -> P (a :: b :: c :: l)) ->
  forall l, P l.
Proof.
  intros H0 H1 H2 H3.
  fix IH 1. intros [|a [|b [|c l]]];
    [exact H0 | exact (H1 a) | exact (H2 a b) | exact (H3 a b c l (IH l))].
Qed.

(** What [EncodeToString] writes for a group and what [decode] reads back. *)
Lemma decode_group (val : Z) (n : nat) (rest : string) (dst : list byte) :
  0 <= val < 16777216 ->
  base64.decode
    (String (base64.encode (sextet val 18))
       (String (base64.encode (sextet val 12))
          (match n with
           | 1%nat => rest
           | 2%nat => String (base64.encode (sextet val 6)) rest
           | _ => String (base64.encode (sextet val 6))
                    (String (base64.encode (Z.land val 63)) rest)
           end))) [] dst
  = match n with
    | 1%nat => base64.decode rest [sextet val 18; sextet val 12] dst
    | 2%nat => base64.decode rest [sextet val 18; sextet val 12; sextet val 6] dst
    | _ => base64.decode rest []
             (dst ++ base64.quantum
                       [sextet val 18; sextet val 12; sextet val 6; Z.land val 63])
    end.
Proof.
  intros Hv.
  assert (Hl : 0 <= Z.land val 63 < 64).
  { change 63 with (Z.ones 6). rewrite Z.land_ones by lia.
    apply Z.mod_pos_bound. lia. }
  destruct n as [|[|[|n]]];
    rewrite ?decode_encoded_char by (first [apply sextet_range; lia | exact Hl]);
    reflexivity.
Qed.

Lemma decode_EncodeToString (src : list byte) : forall dst,
  base64.decode (base64.EncodeToString src) [] dst = ((dst ++ src)%list, None).
Proof.
  induction src as [|a|a b|a b c src IH] using list_ind3; intros dst.
  - simpl. now rewrite app_nil_r.
  - pose proof (byte_to_Z_range a) as Ha.
    pose proof (group_bytes a x00 x00) as (G1 & _); cbv zeta in G1.
    change (byte_to_Z x00) with 0 in G1.
    cbn [base64.EncodeToString].
    replace (Z.shiftl (byte_to_Z a) 16) with (byte_to_Z a * 65536 + 0 * 256 + 0)
      by (rewrite Z.shiftl_mul_pow2 by lia; lia).
    set (val := byte_to_Z a * 65536 + 0 * 256 + 0) in *.
    assert (Hv : 0 <= val < 16777216) by (subst val; lia).
    fold (sextet val 18). fold (sextet val 12).
    rewrite (decode_group val 1 "" dst Hv). cbn [base64.decode].
    assert (Q := quantum_of_sextets val 1 Hv). cbn [firstn] in Q.
    rewrite Q, G1; trivial; try lia; intros _.
    + change 63 with (Z.ones 6). rewrite Z.land_ones by lia.
      subst val. Z.div_mod_to_equations. lia.
    + rewrite sextet_eq by lia. change (2 ^ 6) with 64.
      subst val. Z.div_mod_to_equations. lia.
  - pose proof (byte_to_Z_range a) as Ha.
    pose proof (byte_to_Z_range b) as Hb.
    pose proof (group_bytes a b x00) as (G1 & G2 & _); cbv zeta in G1, G2.
    change (byte_to_Z x00) with 0 in G1, G2.
    cbn [base64.EncodeToString].
    replace (Z.lor (Z.shiftl (byte_to_Z a) 16) (Z.shiftl (byte_to_Z b) 8))
      with (byte_to_Z a * 65536 + byte_to_Z b * 256 + 0)
      by (rewrite <- (group_value (byte_to_Z a) (byte_to_Z b) 0) by lia;
          now rewrite Z.lor_0_r).
    set (val := byte_to_Z a * 65536 + byte_to_Z b * 256 + 0) in *.
    assert (Hv : 0 <= val < 16777216) by (subst val; lia).
    fold (sextet val 18). fold (sextet val 12). fold (sextet val 6).
    rewrite (decode_group val 2 "" dst Hv). cbn [base64.decode].
    assert (Q := quantum_of_sextets val 2 Hv). cbn [firstn] in Q.
    rewrite Q, G1, G2; trivial; try lia; intros _.
    change 63 with (Z.ones 6). rewrite Z.land_ones by lia.
    subst val. Z.div_mod_to_equations. lia.
  - pose proof (byte_to_Z_range a) as Ha.
    pose proof (byte_to_Z_range b) as Hb.
    pose proof (byte_to_Z_range c) as Hc.
    pose proof (group_bytes a b c) as (G1 & G2 & G3); cbv zeta in G1, G2, G3.
    cbn [base64.EncodeToString].
    rewrite (group_value (byte_to_Z a) (byte_to_Z b) (byte_to_Z c)) by lia.
    set (val := byte_to_Z a * 65536 + byte_to_Z b * 256 + byte_to_Z c) in *.
    assert (Hv : 0 <= val < 16777216) by (subst val; lia).
    fold (sextet val 18). fold (sextet val 12). fold (sextet val 6).
    rewrite (decode_group val 3 (base64.EncodeToString src) dst Hv).
    assert (Q := quantum_of_sextets val 3 Hv). cbn [firstn] in Q.
    rewrite Q, G1, G2, G3, IH by lia.
    now rewrite <- app_assoc.
Qed.

(** Decoding the unpadded standard encoding of any bytes gives the bytes
    back, without error. *)
Lemma DecodeString_EncodeToString (b : list byte) :
  base64.DecodeString (base64.EncodeToString b) = (b, None).
Proof. unfold base64.DecodeString. now rewrite decode_EncodeToString. Qed.

(** ** The pass over the fields *)

Section PassFacts.

Context {W : Type}.
Variable Sscanln : string -> value -> Z * option value * option error.

(** A prefix of the fields that is passed without error leaves the rest
    to be processed in the world and with the log it ends in. *)
Lemma R1_Lookup_fields_app (r : Reporter) (seq : list (Looker W)) pre :
  forall rest w t pre' w1 t1,
    R1.Lookup_fields Sscanln pre r seq w t = (pre', w1, t1, Returned None) ->
    R1.Lookup_fields Sscanln (pre ++ rest)%list r seq w t
    = let '(rest', w2, t2, out) := R1.Lookup_fields Sscanln rest r seq w1 t1 in
      ((pre' ++ rest')%list, w2, t2, out).
Proof.
  induction pre as [|f pre IH]; intros rest w t pre' w1 t1 H.
  - inversion H; subst. cbn [app].
    now destruct (R1.Lookup_fields Sscanln rest r seq w1 t1) as [[[? ?] ?] ?].
  - cbn [app R1.Lookup_fields] in *.
    split_matches H; try discriminate; inversion H; subst;
      erewrite IH by eassumption;
      now destruct (R1.Lookup_fields Sscanln rest r seq w1 t1) as [[[? ?] ?] ?].
Qed.

Lemma R2_Lookup_fields_app (r : Reporter) (seq : list (Looker W)) pre :
  forall rest w t pre' w1 t1,
    R2.Lookup_fields Sscanln pre r seq w t = (pre', w1, t1, Returned None) ->
    R2.Lookup_fields Sscanln (pre ++ rest)%list r seq w t
    = let '(rest', w2, t2, out) := R2.Lookup_fields Sscanln rest r seq w1 t1 in
      ((pre' ++ rest')%list, w2, t2, out).
Proof.
  induction pre as [|f pre IH]; intros rest w t pre' w1 t1 H.
  - inversion H; subst. cbn [app].
    now destruct (R2.Lookup_fields Sscanln rest r seq w1 t1) as [[[? ?] ?] ?].
  - cbn [app R2.Lookup_fields] in *.
    split_matches H; try discriminate; inversion H; subst;
      erewrite IH by eassumption;
      now destruct (R2.Lookup_fields Sscanln rest r seq w1 t1) as [[[? ?] ?] ?].
Qed.

End PassFacts.

(** ** Field metadata *)

Lemma Split_not_nil (s : string) (sep : ascii) : strings.Split s sep <> [].
Proof.
  destruct s as [|c s]; cbn [strings.Split]; [discriminate|].
  destruct (Ascii.eqb c sep); [discriminate|].
  destruct (strings.Split s sep); discriminate.
Qed.

(** A single part is the whole string. *)
Lemma Split_single (s : string) (sep : ascii) : forall p,
  strings.Split s sep = [p] -> p = s.
Proof.
  induction s as [|c s IH]; cbn [strings.Split]; intros p H.
  - now inversion H.
  - destruct (Ascii.eqb c sep).
    + inversion H as [[Hp Hs]]. now apply Split_not_nil in Hs.
    + destruct (strings.Split s sep) as [|q qs] eqn:E.
      * now apply Split_not_nil in E.
      * injection H as Hp Hqs. subst p qs. now rewrite (IH q eq_refl).
Qed.

(** Tag systems that are not used are passed over. *)
Lemma findTag_loop_skip (tg : reflect.StructTag) (pre rest : list tagDef) :
  (forall d, In d pre -> matches tg d = false) ->
  R1.findTag_loop (pre ++ rest)%list tg = R1.findTag_loop rest tg.
Proof.
  induction pre as [|d pre IH]; intros Hpre; [reflexivity|].
  cbn [app R1.findTag_loop].
  pose proof (Hpre d (or_introl eq_refl)) as Hd. unfold matches in Hd.
  destruct (reflect.Lookup tg (tag d)) as [s ok]. rewrite Hd.
  apply IH. intros d' Hin. apply Hpre. now right.
Qed.

(** C8.  The value [s] of the winning tag, present and not empty, is
    split on commas; there is always at least one part.  In [findTag] the
    winning tag system is the first of [lookupTags] whose tag is present
    and not empty; in the tag handling of [R3.Lookup] it is the [lookup]
    tag, whatever other tags the field carries.  In both, a single part
    is the whole value and is the key, the field not being optional; with
    two parts or more the first is the key and the field is optional iff
    the second is the optional marker of that tag system.  The case of no
    part at all, for which the field's name would be the key, never
    arises. *)
Theorem findTag_splits_winning_tag :
  forall (tg : reflect.StructTag) (s : string),
    String.eqb s "" = false ->
    let parts := strings.Split s ","%char in
    parts <> []
    /\ (forall (pre post : list tagDef) (def : tagDef),
          lookupTags = (pre ++ def :: post)%list ->
          (forall d, In d pre -> matches tg d = false) ->
          reflect.Lookup tg (tag def) = (s, true) ->
          (forall p, parts = [p] -> p = s /\ R1.findTag tg = (p, false))
          /\ (forall p0 p1 more, parts = p0 :: p1 :: more ->
                R1.findTag tg = (p0, String.eqb p1 (optional def)))
          /\ (parts = [] -> forall field, Tag field = tg ->
                R1.findTag tg = (Name field, false)))
    /\ (forall field : Field,
          Tag field = tg ->
          reflect.Lookup tg "lookup" = (s, true) ->
          (forall p, parts = [p] -> p = s /\ R3.lookup_tag field = (p, false, true))
          /\ (forall p0 p1 more, parts = p0 :: p1 :: more ->
                R3.lookup_tag field = (p0, String.eqb p1 "optional", true))
          /\ (parts = [] -> R3.lookup_tag field = (Name field, false, true))).
Proof.
  intros tg s Hne parts.
  split; [apply Split_not_nil|]. split.
  - intros pre post def Htags Hpre Hs.
    assert (Hfind : R1.findTag tg
                    = match parts with
                      | [] => ("", false)
                      | [_] => (s, false)
                      | p0 :: p1 :: _ => (p0, String.eqb p1 (optional def))
                      end).
    { unfold R1.findTag. rewrite Htags, findTag_loop_skip by exact Hpre.
      cbn [R1.findTag_loop]. rewrite Hs, Hne. reflexivity. }
    split; [|split].
    + intros p Hp. pose proof (Split_single _ _ _ Hp) as ->.
      split; trivial. rewrite Hfind. now rewrite Hp.
    + intros p0 p1 more Hp. rewrite Hfind. now rewrite Hp.
    + intros Hp. now apply Split_not_nil in Hp.
  - intros field Hfield Hs. unfold R3.lookup_tag.
    rewrite Hfield, Hs, Hne. cbn [andb negb]. fold parts. split; [|split].
    + intros p Hp. pose proof (Split_single _ _ _ Hp) as ->. now rewrite Hp.
    + intros p0 p1 more Hp. now rewrite Hp.
    + intros Hp. now apply Split_not_nil in Hp.
Qed.

(** A field with a [lookup] tag only, for [findTag]; a field that carries
    a [json] tag too, for the tag handling of [R3.Lookup]. *)
Lemma findTag_splits_winning_tag_witness :
  R1.findTag [("lookup", "A,optional")] = ("A", true)
  /\ R3.lookup_tag (mkField "B" "" [("json", "J"); ("lookup", "B,optional,x")]
                      (Vstring ""))
     = ("B", true, true)
  /\ R3.lookup_tag (mkField "C" "" [("json", "J,omitempty"); ("lookup", "K")]
                      (Vstring ""))
     = ("K", false, true).
Proof.
  split; [|split].
  - refine (proj1 (proj2 (proj1 (proj2
              (findTag_splits_winning_tag [("lookup", "A,optional")]
                 "A,optional" eq_refl))
              [mkTagDef "json" "omitempty"] [] (mkTagDef "lookup" "optional")
              eq_refl _ eq_refl))
              "A" "optional" [] eq_refl).
    intros d [<- | []]. reflexivity.
  - exact (proj1 (proj2 (proj2 (proj2
             (findTag_splits_winning_tag [("json", "J"); ("lookup", "B,optional,x")]
                "B,optional,x" eq_refl))
             (mkField "B" "" [("json", "J"); ("lookup", "B,optional,x")] (Vstring ""))
             eq_refl eq_refl))
             "B" "optional" ["x"] eq_refl).
  - exact (proj2 (proj1 (proj2 (proj2
             (findTag_splits_winning_tag [("json", "J,omitempty"); ("lookup", "K")]
                "K" eq_refl))
             (mkField "C" "" [("json", "J,omitempty"); ("lookup", "K")] (Vstring ""))
             eq_refl eq_refl)
             "K" eq_refl)).
Defined.

(** [json:"C"] has one part: the key is ["C"], the field is required. *)
Example findTag_json_single :
  R1.findTag [("json", "C")] = ("C", false).
Proof. reflexivity. Qed.

(** A field without recognised tag is not looked up. *)
Example findTag_untagged : R1.findTag [("xml", "C")] = (notFound, false).
Proof. reflexivity. Qed.

(** When the [json] tag of a field is present and not empty, [findTag]
    uses it alone: the key and the optionality are those of the [json]
    value, read with the marker ["omitempty"], and nothing of the [lookup]
    tag enters the result. *)
Lemma findTag_json_before_lookup :
  forall (tg : reflect.StructTag) (j l : string),
    reflect.Lookup tg "json" = (j, true) ->
    String.eqb j "" = false ->
    reflect.Lookup tg "lookup" = (l, true) ->
    R1.findTag tg = R1.findTag [("json", j)]
    /\ R1.findTag tg
       = match strings.Split j ","%char with
         | [] => ("", false)
         | [_] => (j, false)
         | p0 :: p1 :: _ => (p0, String.eqb p1 "omitempty")
         end.
Proof.
  intros tg j l Hj Hne _.
  unfold R1.findTag. cbn [lookupTags R1.findTag_loop tag optional reflect.Lookup].
  rewrite Hj, Hne. cbn [String.eqb Ascii.eqb Bool.eqb andb negb].
  rewrite Hne. split; reflexivity.
Qed.

(** A [json] tag that is present with an empty value is passed over. *)
Example findTag_empty_json_uses_lookup :
  R1.findTag [("json", ""); ("lookup", "K,optional")] = ("K", true)
  /\ R1.findTag [("json", "")] = (notFound, false)
  /\ reflect.Lookup [("json", ""); ("lookup", "K,optional")] "json" = ("", true).
Proof. repeat split. Qed.

(** C2.  For a field that carries both tags with values that are not
    empty, [findTag] (lines 146-164) returns at the first tag system that
    matches: key and optionality are those of the [json] value alone.  The
    loop of lines 320-336 has no [break] and goes on to the [lookup] tag:
    the key it ends with is the key of the [lookup] value, and the
    optionality is that of the [lookup] value when it has two parts or
    more, and otherwise the one the [json] value left behind.  So there the
    lower-priority tag decides the key. *)
Theorem R2_tag_loop_lookup_tag_replaces_json :
  forall (tg : reflect.StructTag) (j l name : string),
    reflect.Lookup tg "json" = (j, true) ->
    String.eqb j "" = false ->
    reflect.Lookup tg "lookup" = (l, true) ->
    String.eqb l "" = false ->
    let json_optional :=
      match strings.Split j ","%char with
      | _ :: p1 :: _ => String.eqb p1 "omitempty"
      | _ => false
      end in
    R1.findTag tg
    = (match strings.Split j ","%char with
       | [] => ""
       | [_] => j
       | p0 :: _ :: _ => p0
       end, json_optional)
    /\ R2.tag_loop lookupTags tg (name, false, false)
       = match strings.Split l ","%char with
         | [] => ("", json_optional, true)
         | [_] => (l, json_optional, true)
         | p0 :: p1 :: _ => (p0, String.eqb p1 "optional", true)
         end.
Proof.
  intros tg j l name Hj Hjne Hl Hlne json_optional. subst json_optional. split.
  - rewrite (proj2 (findTag_json_before_lookup tg j l Hj Hjne Hl)).
    now destruct (strings.Split j ","%char) as [|p0 [|p1 ps]].
  - cbn [R2.tag_loop lookupTags tag optional].
    rewrite Hj, Hjne, Hl, Hlne. cbn [andb negb].
    destruct (strings.Split j ","%char) as [|p0 [|p1 ps]];
      now destruct (strings.Split l ","%char) as [|q0 [|q1 qs]].
Qed.

(** [json:"J,omitempty" lookup:"L"]: [findTag] gives the key ["J"], the
    inline loop the key ["L"], with the optionality of the [json] tag. *)
Lemma R2_tag_loop_lookup_tag_replaces_json_witness :
  R1.findTag [("json", "J,omitempty"); ("lookup", "L")] = ("J", true)
  /\ R2.tag_loop lookupTags [("json", "J,omitempty"); ("lookup", "L")]
       ("Field", false, false)
     = ("L", true, true).
Proof.
  exact (R2_tag_loop_lookup_tag_replaces_json
           [("json", "J,omitempty"); ("lookup", "L")] "J,omitempty" "L" "Field"
           eq_refl eq_refl eq_refl eq_refl).
Defined.

(** The same field through [Lookup]: the revision of lines 295-387 asks
    the sources for ["L"], the one of lines 103-142 for ["J"]. *)
Example Lookup_both_tags_revisions_disagree :
  R2.Lookup Fixtures.scan_bool
    (Pointer [mkField "F" "" [("json", "J"); ("lookup", "L")] (Vstring "")])
    (Some recording) [Fixtures.Env] [("J", "j"); ("L", "l")] []
  = (Pointer [mkField "F" "" [("json", "J"); ("lookup", "L")] (Vstring "l")],
     [("J", "j"); ("L", "l")],
     [EvSet "F" (Vstring "l"); EvReport "L" (Vstring "l")], Returned None)
  /\ R1.Lookup Fixtures.scan_bool
       (Pointer [mkField "F" "" [("json", "J"); ("lookup", "L")] (Vstring "")])
       (Some recording) [Fixtures.Env] [("J", "j"); ("L", "l")] []
     = (Pointer [mkField "F" "" [("json", "J"); ("lookup", "L")] (Vstring "j")],
        [("J", "j"); ("L", "l")],
        [EvSet "F" (Vstring "j"); EvReport "J" (Vstring "j")], Returned None).
Proof. split; reflexivity. Qed.

(** ** Missing values *)

(** C3.  When the fields before [field] are passed without error, [field]
    is tagged with key [k] and is not optional, and the sources answer
    [found = false] with a nil error for [k], [Lookup] returns the error
    "missing value for required field" naming [field]; [field] and the
    fields after it are as they were, the log is the one the earlier
    fields left (their stores and reports, and nothing more), and the
    earlier fields keep their new values.  So in [R1] and in [R2]. *)
Theorem Lookup_missing_required_aborts :
  forall (W : Type) (Sscanln : string -> value -> Z * option value * option error)
         (r : option Reporter) (seq : list (Looker W))
         (pre post pre' : list Field) (field : Field)
         (w w1 w2 : W) (t t1 : list event) (k v : string),
    lookupKey k seq w1 = ((v, false, None), w2) ->
    (R1.Lookup Sscanln (Pointer pre) r seq w t
     = (Pointer pre', w1, t1, Returned None) ->
     R1.findTag (Tag field) = (k, false) ->
     String.eqb k notFound = false ->
     R1.Lookup Sscanln (Pointer (pre ++ field :: post)%list) r seq w t
     = (Pointer (pre' ++ field :: post)%list, w2, t1,
        Returned (Some (ErrMissingRequired (Name field)))))
    /\ (R2.Lookup Sscanln (Pointer pre) r seq w t
        = (Pointer pre', w1, t1, Returned None) ->
        R2.tag_loop lookupTags (Tag field) (Name field, false, false)
        = (k, false, true) ->
        R2.Lookup Sscanln (Pointer (pre ++ field :: post)%list) r seq w t
        = (Pointer (pre' ++ field :: post)%list, w2, t1,
           Returned (Some (ErrMissingRequired (Name field))))).
Proof.
  intros W Sscanln r seq pre post pre' field w w1 w2 t t1 k v Hk. split.
  - intros Hpre Htag Hne. unfold R1.Lookup in *.
    destruct (R1.Lookup_fields Sscanln pre (orDiscard r) seq w t)
      as [[[p0 w0] t0] e0] eqn:E.
    inversion Hpre; subst.
    rewrite (R1_Lookup_fields_app Sscanln _ _ _ _ _ _ _ _ _ E).
    cbn [R1.Lookup_fields]. rewrite Htag, Hne, Hk. reflexivity.
  - intros Hpre Htag. unfold R2.Lookup in *.
    destruct (R2.Lookup_fields Sscanln pre (orDiscard r) seq w t)
      as [[[p0 w0] t0] e0] eqn:E.
    inversion Hpre; subst.
    rewrite (R2_Lookup_fields_app Sscanln _ _ _ _ _ _ _ _ _ E).
    cbn [R2.Lookup_fields]. rewrite Htag, Hk. reflexivity.
Qed.

(** [S] is found and set, [D] is required and missing, [E] is left alone:
    in the revision of lines 103-142 and in the one of lines 295-387. *)
Lemma Lookup_missing_required_aborts_witness :
  R1.Lookup Fixtures.scan_bool
    (Pointer [mkField "S" "" [("lookup", "S")] (Vstring "");
              mkField "D" "" [("lookup", "D")] (Vstring "");
              mkField "E" "" [("lookup", "E")] (Vstring "")])
    (Some recording) [Fixtures.Env] [("S", "hello"); ("E", "x")] []
  = (Pointer [mkField "S" "" [("lookup", "S")] (Vstring "hello");
              mkField "D" "" [("lookup", "D")] (Vstring "");
              mkField "E" "" [("lookup", "E")] (Vstring "")],
     [("S", "hello"); ("E", "x")],
     [EvSet "S" (Vstring "hello"); EvReport "S" (Vstring "hello")],
     Returned (Some (ErrMissingRequired "D")))
  /\ R2.Lookup Fixtures.scan_bool
       (Pointer [mkField "S" "" [("lookup", "S")] (Vstring "");
                 mkField "D" "" [("lookup", "D")] (Vstring "");
                 mkField "E" "" [("lookup", "E")] (Vstring "")])
       (Some recording) [Fixtures.Env] [("S", "hello"); ("E", "x")] []
     = (Pointer [mkField "S" "" [("lookup", "S")] (Vstring "hello");
                 mkField "D" "" [("lookup", "D")] (Vstring "");
                 mkField "E" "" [("lookup", "E")] (Vstring "")],
        [("S", "hello"); ("E", "x")],
        [EvSet "S" (Vstring "hello"); EvReport "S" (Vstring "hello")],
        Returned (Some (ErrMissingRequired "D"))).
Proof.
  split.
  - apply (proj1 (Lookup_missing_required_aborts _ Fixtures.scan_bool
                    (Some recording) [Fixtures.Env]
                    [mkField "S" "" [("lookup", "S")] (Vstring "")]
                    [mkField "E" "" [("lookup", "E")] (Vstring "")]
                    [mkField "S" "" [("lookup", "S")] (Vstring "hello")]
                    (mkField "D" "" [("lookup", "D")] (Vstring ""))
                    [("S", "hello"); ("E", "x")] [("S", "hello"); ("E", "x")]
                    [("S", "hello"); ("E", "x")] []
                    [EvSet "S" (Vstring "hello"); EvReport "S" (Vstring "hello")]
                    "D" "" eq_refl)
             eq_refl eq_refl eq_refl).
  - apply (proj2 (Lookup_missing_required_aborts _ Fixtures.scan_bool
                    (Some recording) [Fixtures.Env]
                    [mkField "S" "" [("lookup", "S")] (Vstring "")]
                    [mkField "E" "" [("lookup", "E")] (Vstring "")]
                    [mkField "S" "" [("lookup", "S")] (Vstring "hello")]
                    (mkField "D" "" [("lookup", "D")] (Vstring ""))
                    [("S", "hello"); ("E", "x")] [("S", "hello"); ("E", "x")]
                    [("S", "hello"); ("E", "x")] []
                    [EvSet "S" (Vstring "hello"); EvReport "S" (Vstring "hello")]
                    "D" "" eq_refl)
             eq_refl eq_refl).
Defined.

(** When the fields before [field] are passed without error, [field] is
    tagged with key [k] and is optional, and the sources answer
    [(v, false, nil)] for [k], [Lookup] calls [Report(k, v)] once, with the
    string [v] that the lookup returned, leaves [field] as it was, and goes
    on with the fields after it.  So in [R1] and in [R2]. *)
Lemma Lookup_missing_optional_reports_raw :
  forall (W : Type) (Sscanln : string -> value -> Z * option value * option error)
         (seq : list (Looker W))
         (pre post pre' : list Field) (field : Field)
         (w w1 w2 : W) (t t1 : list event) (k v : string),
    lookupKey k seq w1 = ((v, false, None), w2) ->
    (R1.Lookup Sscanln (Pointer pre) (Some recording) seq w t
     = (Pointer pre', w1, t1, Returned None) ->
     R1.findTag (Tag field) = (k, true) ->
     String.eqb k notFound = false ->
     R1.Lookup Sscanln (Pointer (pre ++ field :: post)%list) (Some recording) seq w t
     = let '(post', w3, t3, out) :=
         R1.Lookup_fields Sscanln post recording seq w2
           (t1 ++ [EvReport k (Vstring v)])%list in
       (Pointer (pre' ++ field :: post')%list, w3, t3, out))
    /\ (R2.Lookup Sscanln (Pointer pre) (Some recording) seq w t
        = (Pointer pre', w1, t1, Returned None) ->
        R2.tag_loop lookupTags (Tag field) (Name field, false, false)
        = (k, true, true) ->
        R2.Lookup Sscanln (Pointer (pre ++ field :: post)%list) (Some recording) seq w t
        = let '(post', w3, t3, out) :=
            R2.Lookup_fields Sscanln post recording seq w2
              (t1 ++ [EvReport k (Vstring v)])%list in
          (Pointer (pre' ++ field :: post')%list, w3, t3, out)).
Proof.
  intros W Sscanln seq pre post pre' field w w1 w2 t t1 k v Hk. split.
  - intros Hpre Htag Hne. unfold R1.Lookup in *. cbn [orDiscard] in *.
    destruct (R1.Lookup_fields Sscanln pre recording seq w t)
      as [[[p0 w0] t0] e0] eqn:E.
    inversion Hpre; subst.
    rewrite (R1_Lookup_fields_app Sscanln _ _ _ _ _ _ _ _ _ E).
    cbn [R1.Lookup_fields]. rewrite Htag, Hne, Hk. cbn [negb]. cbv zeta.
    change (recording k (Vstring v) t1) with (t1 ++ [EvReport k (Vstring v)])%list.
    now destruct (R1.Lookup_fields Sscanln post recording seq w2 _)
      as [[[? ?] ?] ?].
  - intros Hpre Htag. unfold R2.Lookup in *. cbn [orDiscard] in *.
    destruct (R2.Lookup_fields Sscanln pre recording seq w t)
      as [[[p0 w0] t0] e0] eqn:E.
    inversion Hpre; subst.
    rewrite (R2_Lookup_fields_app Sscanln _ _ _ _ _ _ _ _ _ E).
    cbn [R2.Lookup_fields]. rewrite Htag, Hk. cbn [negb]. cbv zeta.
    change (recording k (Vstring v) t1) with (t1 ++ [EvReport k (Vstring v)])%list.
    now destruct (R2.Lookup_fields Sscanln post recording seq w2 _)
      as [[[? ?] ?] ?].
Qed.

(** The first field of the tests' [conf]: [A] is optional and not in the
    environment; it keeps its value and [("A", "")] is reported. *)
Example Lookup_missing_optional_Env :
  R1.Lookup Fixtures.scan_bool
    (Pointer [mkField "A" "" [("lookup", "A,optional")] (Vbool true);
              mkField "D" "" [("lookup", "D")] (Vstring "")])
    (Some recording) [Fixtures.Env] [("D", "something")] []
  = (Pointer [mkField "A" "" [("lookup", "A,optional")] (Vbool true);
              mkField "D" "" [("lookup", "D")] (Vstring "something")],
     [("D", "something")],
     [EvReport "A" (Vstring "");
      EvSet "D" (Vstring "something"); EvReport "D" (Vstring "something")],
     Returned None).
Proof. reflexivity. Qed.

(** The sources of the package other than [NoBool] and [NoError] answer
    [found = false] with a nil error only together with the empty string:
    [Map], [formLooker], [jsonLooker], [jsonRequestLooker] and
    [ArgsLooker]; so does [Env], that is [NoError] around
    [os.LookupEnv]. *)
Lemma absent_value_is_empty :
  forall (v : string),
    (forall (W : Type) (m : Map) (k : string) (w w' : W),
        Map_LookupKey m k w = ((v, false, None), w') -> v = "")
    /\ (forall (W : Type)
               (ParseForm : W -> (option error * gmap string (list string)) * W)
               (wrap : error -> error) (k : string) (w w' : W),
          formLooker_LookupKey ParseForm wrap k w = ((v, false, None), w') -> v = "")
    /\ (forall (W J File : Type) (Sprint : J -> string)
               (Open : string -> W -> (File + error) * W)
               (Decode : File -> gmap string J -> W
                         -> (option (gmap string J) * option error) * W)
               (Close : File -> W -> W) (l l' : jsonLooker) (k : string) (w w' : W),
          jsonLooker_LookupKey Sprint Open Decode Close l k w
          = ((v, false, None), l', w') -> v = "")
    /\ (forall (W J File : Type) (Sprint : J -> string)
               (Decode : File -> gmap string J -> W
                         -> (option (gmap string J) * option error) * W)
               (Close : File -> W -> W) (l l' : jsonRequestLooker) (k : string)
               (w w' : W),
          jsonRequestLooker_LookupKey Sprint Decode Close l k w
          = ((v, false, None), l', w') -> v = "")
    /\ (forall (l l' : ArgsLooker) (k : string),
          ArgsLooker_LookupKey l k = ((v, false, None), l') -> v = "")
    /\ (forall (k : string) (w w' : list (string * string)),
          Fixtures.Env k w = ((v, false, None), w') -> v = "").
Proof.
  intros v. repeat split.
  - intros W m k w w' H. unfold Map_LookupKey in H.
    destruct (m !! k); now inversion H.
  - intros W ParseForm wrap k w w' H. unfold formLooker_LookupKey in H.
    destruct (ParseForm w) as [[[e|] Form] w0]; [now inversion H|].
    destruct (Form !! k); now inversion H.
  - intros W J File Sprint Open Decode Close l l' k w w' H.
    unfold jsonLooker_LookupKey, json_get in H.
    destruct (data l) as [m|].
    + destruct (m !! k); now inversion H.
    + cbn [filename data] in H.
      destruct (Open (filename l) w) as [[f|e] w0]; [|now inversion H].
      destruct (Decode f ∅ w0) as [[[m|] [e|]] w1]; cbn [data] in H;
        try (now inversion H).
      destruct (m !! k); now inversion H.
  - intros W J File Sprint Decode Close l l' k w w' H.
    unfold jsonRequestLooker_LookupKey, json_get in H.
    destruct (rdata l) as [m|].
    + destruct (m !! k); now inversion H.
    + destruct (Decode (Body l) ∅ w) as [[[m|] [e|]] w1]; cbn [rdata] in H;
        try (now inversion H).
      destruct (m !! k); now inversion H.
  - intros l l' k H. unfold ArgsLooker_LookupKey in H. cbv zeta in H.
    destruct (adata l) as [m|] eqn:E.
    + rewrite E in H. destruct (m !! k); now inversion H.
    + destruct (Args_loop (rex l) (args l) (extraArgs l) ∅) as [extra d].
      cbn [adata] in H. destruct (d !! k); now inversion H.
  - intros k w w' H. unfold Fixtures.Env, NoError in H.
    assert (Hl : forall env, snd (Fixtures.LookupEnv env k) = false ->
                             fst (Fixtures.LookupEnv env k) = "").
    { induction env as [|[k0 v0] env IH]; cbn [Fixtures.LookupEnv]; [reflexivity|].
      destruct (String.eqb k0 k); [discriminate|exact IH]. }
    destruct (Fixtures.LookupEnv w k) as [v0 b0] eqn:E.
    inversion H; subst. pose proof (Hl w') as Hw. rewrite E in Hw.
    now apply Hw.
Qed.

(** C4.  Behind [NoBool] a function [F] that supplies the value [v] for the
    key [k], without error, is answered as [(v, false, nil)]: as last
    source, after sources that decline, it makes [lookupKey] return
    [found = false] with the value.  An optional field tagged [k] is then
    treated as missing: the field is left as it was, although [v] was
    supplied, the reporter is handed [(k, v)], [v] not being the empty
    string in general, and the pass goes on.  So in [R1] and in [R2]. *)
Theorem Lookup_optional_behind_NoBool_not_set :
  forall (W : Type) (Sscanln : string -> value -> Z * option value * option error)
         (F : string -> W -> (string * option error) * W)
         (srcs : list (Looker W))
         (pre post pre' : list Field) (field : Field)
         (w w1 w1' w2 : W) (t t1 : list event) (k v : string),
    declined k srcs w1 w1' ->
    F k w1' = ((v, None), w2) ->
    lookupKey k (srcs ++ [NoBool F])%list w1 = ((v, false, None), w2)
    /\ (R1.Lookup Sscanln (Pointer pre) (Some recording) (srcs ++ [NoBool F])%list w t
        = (Pointer pre', w1, t1, Returned None) ->
        R1.findTag (Tag field) = (k, true) ->
        String.eqb k notFound = false ->
        R1.Lookup Sscanln (Pointer (pre ++ field :: post)%list) (Some recording)
          (srcs ++ [NoBool F])%list w t
        = let '(post', w3, t3, out) :=
            R1.Lookup_fields Sscanln post recording (srcs ++ [NoBool F])%list w2
              (t1 ++ [EvReport k (Vstring v)])%list in
          (Pointer (pre' ++ field :: post')%list, w3, t3, out))
    /\ (R2.Lookup Sscanln (Pointer pre) (Some recording) (srcs ++ [NoBool F])%list w t
        = (Pointer pre', w1, t1, Returned None) ->
        R2.tag_loop lookupTags (Tag field) (Name field, false, false)
        = (k, true, true) ->
        R2.Lookup Sscanln (Pointer (pre ++ field :: post)%list) (Some recording)
          (srcs ++ [NoBool F])%list w t
        = let '(post', w3, t3, out) :=
            R2.Lookup_fields Sscanln post recording (srcs ++ [NoBool F])%list w2
              (t1 ++ [EvReport k (Vstring v)])%list in
          (Pointer (pre' ++ field :: post')%list, w3, t3, out)).
Proof.
  intros W Sscanln F srcs pre post pre' field w w1 w1' w2 t t1 k v Hd HF.
  assert (Hk : lookupKey k (srcs ++ [NoBool F])%list w1 = ((v, false, None), w2)).
  { unfold lookupKey.
    destruct (lookupKey_loop_declined k srcs [NoBool F] ("", false, None) w1 w1' Hd)
      as (cur' & -> & _).
    cbn [lookupKey_loop]. unfold NoBool. rewrite HF. reflexivity. }
  split; [exact Hk|].
  exact (Lookup_missing_optional_reports_raw W Sscanln (srcs ++ [NoBool F])%list
           pre post pre' field w w1 w2 t t1 k v Hk).
Qed.

(** [HOME] is in the environment and is read through [NoBool]: the
    optional field [Home] keeps its old value and [("HOME", "/root")] is
    reported, in both revisions. *)
Lemma Lookup_optional_behind_NoBool_not_set_witness :
  lookupKey "HOME" [Fixtures.Getenv] [("HOME", "/root")]
  = (("/root", false, None), [("HOME", "/root")])
  /\ R1.Lookup Fixtures.scan_bool
       (Pointer [mkField "Home" "" [("lookup", "HOME,optional")] (Vstring "old")])
       (Some recording) [Fixtures.Getenv] [("HOME", "/root")] []
     = (Pointer [mkField "Home" "" [("lookup", "HOME,optional")] (Vstring "old")],
        [("HOME", "/root")],
        [EvReport "HOME" (Vstring "/root")],
        Returned None)
  /\ R2.Lookup Fixtures.scan_bool
       (Pointer [mkField "Home" "" [("lookup", "HOME,optional")] (Vstring "old")])
       (Some recording) [Fixtures.Getenv] [("HOME", "/root")] []
     = (Pointer [mkField "Home" "" [("lookup", "HOME,optional")] (Vstring "old")],
        [("HOME", "/root")],
        [EvReport "HOME" (Vstring "/root")],
        Returned None).
Proof.
  pose proof (Lookup_optional_behind_NoBool_not_set (list (string * string))
                Fixtures.scan_bool
                (fun key w => ((fst (Fixtures.LookupEnv w key), None), w))
                [] [] [] []
                (mkField "Home" "" [("lookup", "HOME,optional")] (Vstring "old"))
                [("HOME", "/root")] [("HOME", "/root")] [("HOME", "/root")]
                [("HOME", "/root")] [] [] "HOME" "/root"
                (declined_nil _ _) eq_refl) as (H0 & H1 & H2).
  split; [exact H0|]. split.
  - exact (H1 eq_refl eq_refl eq_refl).
  - exact (H2 eq_refl eq_refl).
Defined.

(** ** Coercion and reporting *)

(** In [R1], a field that [setField] sets is reported once, after any
    store into it, with the value it then holds. *)
Lemma R1_setField_reports_field (Sscanln : string -> value -> Z * option value * option error)
    (field : Field) (v fieldKey fieldName : string) (t : list event) :
  forall field' t',
    R1.setField Sscanln field v fieldKey fieldName recording t
    = (field', t', Returned None) ->
    exists sets,
      t' = (t ++ sets ++ [EvReport fieldKey (Val field')])%list
      /\ (sets = [] \/ sets = [EvSet (Name field) (Val field')])
      /\ (scanned (Val field) = false -> sets = [EvSet (Name field) (Val field')]).
Proof.
  intros field' t' H. unfold R1.setField, store, recording in H.
  destruct (CanInterface field); cbn [negb] in H; [|discriminate].
  destruct (Val field) eqn:Ev; cbn [CanAddr negb] in H.
  1: { inversion H; subst; cbn [Val].
       exists [EvSet (Name field) (Vstring v)].
       rewrite <- app_assoc. repeat split; auto. }
  1: { destruct (base64.DecodeString v) as [b' [e|]]; [discriminate|].
       inversion H; subst; cbn [Val].
       exists [EvSet (Name field) (Vbytes b')].
       rewrite <- app_assoc. repeat split; auto. }
  all: destruct (Sscanln _ _) as [[n [x|]] [e|]]; try discriminate;
    destruct (n =? 1); try discriminate; cbn [negb] in H;
    inversion H; subst; cbn [Val];
    [ exists [EvSet (Name field) x]; rewrite <- app_assoc
    | exists [] ];
    repeat split; auto; discriminate.
Qed.

Lemma R1_setField_reports_field_witness :
  exists sets,
    [EvSet "A" (Vbool false); EvReport "A" (Vbool false)]
    = ([] ++ sets ++ [EvReport "A" (Vbool false)])%list
    /\ (sets = [] \/ sets = [EvSet "A" (Vbool false)])
    /\ (scanned (Vbool true) = false -> sets = [EvSet "A" (Vbool false)]).
Proof.
  apply (R1_setField_reports_field Fixtures.scan_bool
           (mkField "A" "" [("lookup", "A,optional")] (Vbool true)) "f" "A" "A" []
           (mkField "A" "" [("lookup", "A,optional")] (Vbool false))
           [EvSet "A" (Vbool false); EvReport "A" (Vbool false)] eq_refl).
Defined.

(** C5 in [R2].  For a field that goes to [fmt.Sscanln] there, a scan
    that reads one item and stores [x] is followed by [Report(fieldKey, v)]
    with the raw string [v], not with [x]; [setField], which is reached
    with exported fields only, reports [x]. *)
Theorem R2_scanned_field_reports_raw_string :
  forall (Sscanln : string -> value -> Z * option value * option error)
         (field : Field) (v fieldKey : string) (t : list event) (x : value),
    scanned (Val field) = true ->
    Sscanln (v ++ String "010"%char "") (Val field) = (1, Some x, None) ->
    R2.coerce Sscanln field v fieldKey recording t
    = (mkField (Name field) (PkgPath field) (Tag field) x,
       (t ++ [EvSet (Name field) x; EvReport fieldKey (Vstring v)])%list,
       None, None)
    /\ (PkgPath field = "" ->
        R1.setField Sscanln field v fieldKey (Name field) recording t
        = (mkField (Name field) (PkgPath field) (Tag field) x,
           (t ++ [EvSet (Name field) x; EvReport fieldKey x])%list,
           Returned None)).
Proof.
  intros Sscanln field v fieldKey t x Hs Hscan.
  unfold R2.coerce, R1.setField, CanInterface, store, recording.
  destruct (Val field) eqn:Ev; try discriminate;
    cbn [CanAddr negb]; rewrite Hscan; cbn [Z.eqb Pos.eqb negb Val];
    rewrite <- !app_assoc; (split; [reflexivity|]);
    intros Hx; rewrite Hx; reflexivity.
Qed.

(** [A bool `lookup:"A,optional"`] with [A=f] in the environment: [R2]
    reports the string ["f"], [setField] the boolean. *)
Lemma R2_scanned_field_reports_raw_string_witness :
  R2.coerce Fixtures.scan_bool
    (mkField "A" "" [("lookup", "A,optional")] (Vbool true)) "f" "A" recording []
  = (mkField "A" "" [("lookup", "A,optional")] (Vbool false),
     [EvSet "A" (Vbool false); EvReport "A" (Vstring "f")], None, None)
  /\ R1.setField Fixtures.scan_bool
       (mkField "A" "" [("lookup", "A,optional")] (Vbool true)) "f" "A" "A"
       recording []
     = (mkField "A" "" [("lookup", "A,optional")] (Vbool false),
        [EvSet "A" (Vbool false); EvReport "A" (Vbool false)], Returned None).
Proof.
  destruct (R2_scanned_field_reports_raw_string Fixtures.scan_bool
              (mkField "A" "" [("lookup", "A,optional")] (Vbool true))
              "f" "A" [] (Vbool false) eq_refl eq_refl) as [H2 H1].
  split; [exact H2 | exact (H1 eq_refl)].
Defined.

Example R2_Lookup_reports_raw_string :
  R2.Lookup Fixtures.scan_bool
    (Pointer [mkField "A" "" [("lookup", "A,optional")] (Vbool true)])
    (Some recording) [Fixtures.Env] [("A", "f")] []
  = (Pointer [mkField "A" "" [("lookup", "A,optional")] (Vbool false)],
     [("A", "f")],
     [EvSet "A" (Vbool false); EvReport "A" (Vstring "f")], Returned None).
Proof. reflexivity. Qed.

Example R1_Lookup_reports_converted :
  R1.Lookup Fixtures.scan_bool
    (Pointer [mkField "A" "" [("lookup", "A,optional")] (Vbool true)])
    (Some recording) [Fixtures.Env] [("A", "f")] []
  = (Pointer [mkField "A" "" [("lookup", "A,optional")] (Vbool false)],
     [("A", "f")],
     [EvSet "A" (Vbool false); EvReport "A" (Vbool false)], Returned None).
Proof. reflexivity. Qed.

(** With a nil reporter nothing is reported. *)
Example R1_Lookup_nil_reporter :
  R1.Lookup Fixtures.scan_bool
    (Pointer [mkField "A" "" [("lookup", "A,optional")] (Vbool true)])
    None [Fixtures.Env] [("A", "f")] []
  = (Pointer [mkField "A" "" [("lookup", "A,optional")] (Vbool false)],
     [("A", "f")], [EvSet "A" (Vbool false)], Returned None).
Proof. reflexivity. Qed.

(** ** Byte fields *)

(** In [R1], the unpadded standard encoding of [b] sets an exported
    [[]byte] field to [b], which is then reported. *)
Lemma R1_setField_bytes_roundtrip
    (Sscanln : string -> value -> Z * option value * option error)
    (field : Field) (old b : list byte) (fieldKey fieldName : string)
    (t : list event) :
  PkgPath field = "" ->
  Val field = Vbytes old ->
  R1.setField Sscanln field (base64.EncodeToString b) fieldKey fieldName recording t
  = (mkField (Name field) (PkgPath field) (Tag field) (Vbytes b),
     (t ++ [EvSet (Name field) (Vbytes b); EvReport fieldKey (Vbytes b)])%list,
     Returned None).
Proof.
  intros Hx Hv. unfold R1.setField, CanInterface, store, recording.
  rewrite Hx, Hv, DecodeString_EncodeToString, <- app_assoc. reflexivity.
Qed.

Lemma R1_setField_bytes_roundtrip_witness :
  R1.setField Fixtures.scan_bool (mkField "P" "" [("lookup", "P")] (Vbytes []))
    (base64.EncodeToString [x41; x42; x43; x44]) "P" "P" recording []
  = (mkField "P" "" [("lookup", "P")] (Vbytes [x41; x42; x43; x44]),
     [EvSet "P" (Vbytes [x41; x42; x43; x44]);
      EvReport "P" (Vbytes [x41; x42; x43; x44])],
     Returned None).
Proof.
  apply (R1_setField_bytes_roundtrip Fixtures.scan_bool
           (mkField "P" "" [("lookup", "P")] (Vbytes [])) [] [x41; x42; x43; x44]
           "P" "P" [] eq_refl eq_refl).
Defined.

(** In [R1], a string that the decoder rejects leaves an exported
    [[]byte] field and the log as they were, and the pass ends with the
    error. *)
Lemma R1_Lookup_bytes_invalid {W : Type}
    (Sscanln : string -> value -> Z * option value * option error)
    (r : Reporter) (seq : list (Looker W)) (field : Field) (rest : list Field)
    (old b : list byte) (k v : string) (opt : bool) (e : error)
    (w w1 : W) (t : list event) :
  PkgPath field = "" ->
  Val field = Vbytes old ->
  R1.findTag (Tag field) = (k, opt) ->
  String.eqb k notFound = false ->
  lookupKey k seq w = ((v, true, None), w1) ->
  base64.DecodeString v = (b, Some e) ->
  R1.setField Sscanln field v k (Name field) r t = (field, t, Returned (Some e))
  /\ R1.Lookup_fields Sscanln (field :: rest) r seq w t
     = (field :: rest, w1, t,
        Returned (Some (ErrNotType v (Name field) "[]uint8" e))).
Proof.
  intros Hx Hv Htag Hne Hk Hd.
  assert (Hset : R1.setField Sscanln field v k (Name field) r t
                 = (field, t, Returned (Some e))).
  { unfold R1.setField, CanInterface. now rewrite Hx, Hv, Hd. }
  split; [exact Hset|].
  cbn [R1.Lookup_fields]. rewrite Htag, Hne, Hk, Hset, Hv. reflexivity.
Qed.

(** A padded encoding is refused by the unpadded decoder. *)
Lemma R1_Lookup_bytes_invalid_witness :
  R1.Lookup_fields Fixtures.scan_bool
    [mkField "P" "" [("lookup", "P")] (Vbytes []);
     mkField "D" "" [("lookup", "D")] (Vstring "")]
    recording [Fixtures.Env] [("P", "QUJDRA=="); ("D", "x")] []
  = ([mkField "P" "" [("lookup", "P")] (Vbytes []);
      mkField "D" "" [("lookup", "D")] (Vstring "")],
     [("P", "QUJDRA=="); ("D", "x")], [],
     Returned (Some (ErrNotType "QUJDRA==" "P" "[]uint8" CorruptInputError))).
Proof.
  apply (proj2 (R1_Lookup_bytes_invalid Fixtures.scan_bool recording [Fixtures.Env]
                  (mkField "P" "" [("lookup", "P")] (Vbytes []))
                  [mkField "D" "" [("lookup", "D")] (Vstring "")]
                  [] [x41; x42; x43] "P" "QUJDRA==" false CorruptInputError
                  [("P", "QUJDRA=="); ("D", "x")] [("P", "QUJDRA=="); ("D", "x")] []
                  eq_refl eq_refl eq_refl eq_refl eq_refl eq_refl)).
Defined.

(** C6 in [R2] and [R3].  There the test after [DecodeString] is
    [if err != nil { field.SetBytes(b) }]: the encoding of [b] leaves a
    [[]byte] field as it was (and [b] is reported all the same), and a
    string that the decoder rejects stores the bytes decoded before the
    error and raises no error, so that the pass goes on. *)
Theorem R2_R3_bytes_stored_only_on_error :
  forall (Sscanln : string -> value -> Z * option value * option error)
         (ParseInt ParseUint : string -> Z -> Z -> Z * option error)
         (ParseFloat : string -> Z -> float * option error)
         (field : Field) (old : list byte) (fieldKey : string) (t : list event),
    Val field = Vbytes old ->
    (forall b,
        R3.coerce ParseInt ParseUint ParseFloat field (base64.EncodeToString b)
          fieldKey recording t
        = (field, (t ++ [EvReport fieldKey (Vbytes b)])%list, Returned None, None)
        /\ R2.coerce Sscanln field (base64.EncodeToString b) fieldKey recording t
           = (field, (t ++ [EvReport fieldKey (Vbytes b)])%list, None, None))
    /\ (forall v b e,
          base64.DecodeString v = (b, Some e) ->
          R3.coerce ParseInt ParseUint ParseFloat field v fieldKey recording t
          = (mkField (Name field) (PkgPath field) (Tag field) (Vbytes b),
             (t ++ [EvSet (Name field) (Vbytes b); EvReport fieldKey (Vbytes b)])%list,
             Returned None, None)
          /\ R2.coerce Sscanln field v fieldKey recording t
             = (mkField (Name field) (PkgPath field) (Tag field) (Vbytes b),
                (t ++ [EvSet (Name field) (Vbytes b); EvReport fieldKey (Vbytes b)])%list,
                None, None)).
Proof.
  intros Sscanln PI PU PF field old fieldKey t Hv. split.
  - intros b. unfold R3.coerce, R2.coerce, recording.
    rewrite Hv, DecodeString_EncodeToString. split; reflexivity.
  - intros v b e Hd. unfold R3.coerce, R2.coerce, store, recording.
    rewrite Hv, Hd, <- app_assoc. split; reflexivity.
Qed.

(** ["QUJD"] encodes the bytes of ["ABC"]; an empty [[]byte] field stays
    empty. *)
Lemma R2_R3_bytes_stored_only_on_error_witness :
  R3.coerce Fixtures.parse_int Fixtures.parse_int Fixtures.parse_float
    (mkField "P" "" [("lookup", "P")] (Vbytes [])) "QUJD" "P" recording []
  = (mkField "P" "" [("lookup", "P")] (Vbytes []),
     [EvReport "P" (Vbytes [x41; x42; x43])], Returned None, None).
Proof.
  apply (proj1 (proj1 (R2_R3_bytes_stored_only_on_error Fixtures.scan_bool
                         Fixtures.parse_int Fixtures.parse_int Fixtures.parse_float
                         (mkField "P" "" [("lookup", "P")] (Vbytes [])) [] "P" []
                         eq_refl) [x41; x42; x43])).
Defined.

(** The same input through the whole pass of [R3] and of [R1]. *)
Example R3_Lookup_bytes_not_stored :
  R3.Lookup Fixtures.parse_int Fixtures.parse_int Fixtures.parse_float
    (Pointer [mkField "P" "" [("lookup", "P")] (Vbytes [])])
    Fixtures.Env (Some recording) [("P", "QUJD")] []
  = (Pointer [mkField "P" "" [("lookup", "P")] (Vbytes [])],
     [("P", "QUJD")], [EvReport "P" (Vbytes [x41; x42; x43])], Returned None).
Proof. reflexivity. Qed.

Example R3_Lookup_bytes_invalid_no_error :
  R3.Lookup Fixtures.parse_int Fixtures.parse_int Fixtures.parse_float
    (Pointer [mkField "P" "" [("lookup", "P")] (Vbytes [])])
    Fixtures.Env (Some recording) [("P", "QUJD*")] []
  = (Pointer [mkField "P" "" [("lookup", "P")] (Vbytes [x41; x42; x43])],
     [("P", "QUJD*")],
     [EvSet "P" (Vbytes [x41; x42; x43]); EvReport "P" (Vbytes [x41; x42; x43])],
     Returned None).
Proof. reflexivity. Qed.

Example R1_Lookup_bytes_stored :
  R1.Lookup Fixtures.scan_bool
    (Pointer [mkField "P" "" [("lookup", "P")] (Vbytes [])])
    (Some recording) [Fixtures.Env] [("P", "QUJD")] []
  = (Pointer [mkField "P" "" [("lookup", "P")] (Vbytes [x41; x42; x43])],
     [("P", "QUJD")],
     [EvSet "P" (Vbytes [x41; x42; x43]); EvReport "P" (Vbytes [x41; x42; x43])],
     Returned None).
Proof. reflexivity. Qed.

(** ** Complex fields *)

(** A string without separator is its own single part. *)
Lemma Split_no_sep (s : string) (sep : ascii) :
  existsb (Ascii.eqb sep) (list_ascii_of_string s) = false ->
  strings.Split s sep = [s].
Proof.
  induction s as [|c s IH]; cbn [list_ascii_of_string existsb strings.Split];
    intros H; [reflexivity|].
  apply orb_false_iff in H as [Hc Hs].
  rewrite Ascii.eqb_sym, Hc, (IH Hs). reflexivity.
Qed.

(** C7 in [R3], the raw value without comma.  [strings.Split(s, ",")] then
    has one element and capacity one, the slice expression [[:2]] panics:
    [setComplex] returns no error, and neither does [Lookup], which reaches
    [setComplex] for an exported field; the field and the log are as they
    were. *)
Theorem setComplex_without_comma_panics :
  forall (W : Type) (ParseInt ParseUint : string -> Z -> Z -> Z * option error)
         (ParseFloat : string -> Z -> float * option error)
         (l : Looker W) (r : Reporter) (field : Field) (rest : list Field)
         (ct : complexType) (re im : float) (bits : Z)
         (k v : string) (opt : bool) (w w1 : W) (t : list event),
    existsb (Ascii.eqb ","%char) (list_ascii_of_string v) = false ->
    Val field = Vcomplex ct re im ->
    R3.lookup_tag field = (k, opt, true) ->
    l k w = ((v, true, None), w1) ->
    R3.setComplex ParseFloat field v bits r k t
    = (field, t, Panicked "slice bounds out of range [:2] with capacity 1")
    /\ (PkgPath field = "" ->
        R3.Lookup_fields ParseInt ParseUint ParseFloat (field :: rest) l r w t
        = (field :: rest, w1, t,
           Panicked "slice bounds out of range [:2] with capacity 1")).
Proof.
  intros W PI PU PF l r field rest ct re im bits k v opt w w1 t Hv Hf Htag Hl.
  assert (Hset : forall b, R3.setComplex PF field v b r k t
                 = (field, t, Panicked "slice bounds out of range [:2] with capacity 1")).
  { intros b. unfold R3.setComplex. now rewrite (Split_no_sep v _ Hv). }
  split; [apply Hset|]. intros Hx.
  cbn [R3.Lookup_fields]. rewrite Htag, Hl. cbn [negb].
  unfold CanInterface. rewrite Hx. cbn [String.eqb negb].
  unfold R3.coerce. rewrite Hf. destruct ct; rewrite Hset; reflexivity.
Qed.

(** [C complex128 `lookup:"C"`] with [C=3] in the environment. *)
Lemma setComplex_without_comma_panics_witness :
  R3.Lookup Fixtures.parse_int Fixtures.parse_int Fixtures.parse_float
    (Pointer [mkField "C" "" [("lookup", "C")] (Vcomplex Tcomplex128 0 0)])
    Fixtures.Env (Some recording) [("C", "3")] []
  = (Pointer [mkField "C" "" [("lookup", "C")] (Vcomplex Tcomplex128 0 0)],
     [("C", "3")], [],
     Panicked "slice bounds out of range [:2] with capacity 1").
Proof.
  unfold R3.Lookup.
  rewrite (proj2 (setComplex_without_comma_panics _
                    Fixtures.parse_int Fixtures.parse_int Fixtures.parse_float
                    Fixtures.Env (orDiscard (Some recording))
                    (mkField "C" "" [("lookup", "C")] (Vcomplex Tcomplex128 0 0)) []
                    Tcomplex128 0%float 0%float 64 "C" "3" false
                    [("C", "3")] [("C", "3")] []
                    eq_refl eq_refl eq_refl eq_refl) eq_refl).
  reflexivity.
Defined.

(** In [R3], for a raw value with two components that [ParseFloat]
    reads as [x] and [y], the field is set to the complex number of
    real part [x] and imaginary part [y], which is then reported. *)
Lemma setComplex_two_components
    (ParseFloat : string -> Z -> float * option error)
    (r : Reporter) (field : Field) (ct : complexType) (re im x y : float)
    (bits : Z) (fieldKey a b : string) (t : list event) :
  Val field = Vcomplex ct re im ->
  strings.Split (a ++ "," ++ b) ","%char = [a; b] ->
  ParseFloat a bits = (x, None) ->
  ParseFloat b bits = (y, None) ->
  R3.setComplex ParseFloat field (a ++ "," ++ b) bits r fieldKey t
  = (mkField (Name field) (PkgPath field) (Tag field) (Vcomplex ct x y),
     r fieldKey (Vcomplex Tcomplex128 x y) (t ++ [EvSet (Name field) (Vcomplex ct x y)])%list,
     Returned None).
Proof.
  intros Hf Hsplit Ha Hb. unfold R3.setComplex, store.
  rewrite Hsplit. change (strings.slice_to_2 [a; b]) with (Some [a; b]).
  cbn [R3.setComplex_loop]. rewrite Ha. cbn [R3.setComplex_loop fst snd].
  rewrite Hb. cbn [fst snd]. now rewrite Hf.
Qed.

Lemma setComplex_two_components_witness :
  R3.setComplex Fixtures.parse_float
    (mkField "C" "" [("lookup", "C")] (Vcomplex Tcomplex128 0 0)) "3,4" 64
    recording "C" []
  = (mkField "C" "" [("lookup", "C")] (Vcomplex Tcomplex128 3 4),
     [EvSet "C" (Vcomplex Tcomplex128 3 4); EvReport "C" (Vcomplex Tcomplex128 3 4)],
     Returned None).
Proof.
  apply (setComplex_two_components Fixtures.parse_float recording
           (mkField "C" "" [("lookup", "C")] (Vcomplex Tcomplex128 0 0))
           Tcomplex128 0%float 0%float 3%float 4%float 64 "C" "3" "4" []
           eq_refl eq_refl eq_refl eq_refl).
Defined.

Example setComplex_3_4 :
  R3.Lookup Fixtures.parse_int Fixtures.parse_int Fixtures.parse_float
    (Pointer [mkField "C" "" [("lookup", "C")] (Vcomplex Tcomplex128 0 0)])
    Fixtures.Env (Some recording) [("C", "3,4")] []
  = (Pointer [mkField "C" "" [("lookup", "C")] (Vcomplex Tcomplex128 3 4)],
     [("C", "3,4")],
     [EvSet "C" (Vcomplex Tcomplex128 3 4); EvReport "C" (Vcomplex Tcomplex128 3 4)],
     Returned None).
Proof. reflexivity. Qed.

(** A third component is not looked at. *)
Example setComplex_3_4_5 :
  R3.setComplex Fixtures.parse_float
    (mkField "C" "" [("lookup", "C")] (Vcomplex Tcomplex64 0 0)) "3,4,x" 32
    recording "C" []
  = (mkField "C" "" [("lookup", "C")] (Vcomplex Tcomplex64 3 4),
     [EvSet "C" (Vcomplex Tcomplex64 3 4); EvReport "C" (Vcomplex Tcomplex128 3 4)],
     Returned None).
Proof. reflexivity. Qed.

(** ** Boolean fields *)

(** In [R3], where [bool] fields go to [strconv.ParseBool]: the six
    literals ["1"], ["t"], ["T"], ["true"], ["TRUE"], ["True"] set the
    field to [true], the six literals ["0"], ["f"], ["F"], ["false"],
    ["FALSE"], ["False"] set it to [false], each followed by one report of
    the boolean; every other string, other spellings of these words
    included, returns the error "value ... is not bool" and leaves the
    field and the log as they were. *)
Lemma R3_bool_accepts_twelve_literals :
  forall (ParseInt ParseUint : string -> Z -> Z -> Z * option error)
         (ParseFloat : string -> Z -> float * option error)
         (field : Field) (old : bool) (v fieldKey : string) (t : list event),
    Val field = Vbool old ->
    (In v ["1"; "t"; "T"; "true"; "TRUE"; "True"] ->
     R3.coerce ParseInt ParseUint ParseFloat field v fieldKey recording t
     = (mkField (Name field) (PkgPath field) (Tag field) (Vbool true),
        (t ++ [EvSet (Name field) (Vbool true); EvReport fieldKey (Vbool true)])%list,
        Returned None, None))
    /\ (In v ["0"; "f"; "F"; "false"; "FALSE"; "False"] ->
        R3.coerce ParseInt ParseUint ParseFloat field v fieldKey recording t
        = (mkField (Name field) (PkgPath field) (Tag field) (Vbool false),
           (t ++ [EvSet (Name field) (Vbool false); EvReport fieldKey (Vbool false)])%list,
           Returned None, None))
    /\ (~ In v ["1"; "t"; "T"; "true"; "TRUE"; "True";
                "0"; "f"; "F"; "false"; "FALSE"; "False"] ->
        R3.coerce ParseInt ParseUint ParseFloat field v fieldKey recording t
        = (field, t, Returned None,
           Some (ErrNotBool v (Name field) (NumError "ParseBool" v)))).
Proof.
  intros PI PU PF field old v fieldKey t Hf.
  unfold R3.coerce, strconv.ParseBool, store, recording. rewrite Hf.
  split; [|split].
  - intros Hin.
    repeat (destruct Hin as [<- | Hin];
            [cbn; rewrite <- app_assoc; reflexivity|]).
    destruct Hin.
  - intros Hin.
    repeat (destruct Hin as [<- | Hin];
            [cbn; rewrite <- app_assoc; reflexivity|]).
    destruct Hin.
  - intros Hnot.
    destruct (existsb (String.eqb v) ["1"; "t"; "T"; "true"; "TRUE"; "True"]) eqn:E1.
    { apply existsb_exists in E1 as (x & Hx & Heq). apply String.eqb_eq in Heq.
      subst x. exfalso. apply Hnot.
      change (In v (["1"; "t"; "T"; "true"; "TRUE"; "True"]
                    ++ ["0"; "f"; "F"; "false"; "FALSE"; "False"])%list).
      apply in_or_app. now left. }
    destruct (existsb (String.eqb v) ["0"; "f"; "F"; "false"; "FALSE"; "False"]) eqn:E2.
    { apply existsb_exists in E2 as (x & Hx & Heq). apply String.eqb_eq in Heq.
      subst x. exfalso. apply Hnot.
      change (In v (["1"; "t"; "T"; "true"; "TRUE"; "True"]
                    ++ ["0"; "f"; "F"; "false"; "FALSE"; "False"])%list).
      apply in_or_app. now right. }
    reflexivity.
Qed.

Example R3_bool_literal_True :
  R3.coerce Fixtures.parse_int Fixtures.parse_int Fixtures.parse_float
    (mkField "A" "" [("lookup", "A,optional")] (Vbool false)) "True" "A" recording []
  = (mkField "A" "" [("lookup", "A,optional")] (Vbool true),
     [EvSet "A" (Vbool true); EvReport "A" (Vbool true)], Returned None, None).
Proof. reflexivity. Qed.

(** ["tRUE"] spells [true] in another letter case and is refused there. *)
Example R3_bool_refuses_mixed_case :
  R3.coerce Fixtures.parse_int Fixtures.parse_int Fixtures.parse_float
    (mkField "A" "" [("lookup", "A,optional")] (Vbool false)) "tRUE" "A" recording []
  = (mkField "A" "" [("lookup", "A,optional")] (Vbool false), [], Returned None,
     Some (ErrNotBool "tRUE" "A" (NumError "ParseBool" "tRUE")))
  /\ strconv.ParseBool "tRUE" = (false, Some (NumError "ParseBool" "tRUE")).
Proof. split; reflexivity. Qed.

(** [fmt.Sscanln] on a line that holds one of the spellings. *)
Lemma Sscanln_bool_spellings :
  Forall (fun v => is_ascii (v ++ String "010"%char "") = true
                   /\ fmt.Sscanln_bool (fmt.runes (v ++ String "010"%char ""))
                      = (1, Some true, None))
         ("1" :: spellings "t" ++ spellings "true")
  /\ Forall (fun v => is_ascii (v ++ String "010"%char "") = true
                      /\ fmt.Sscanln_bool (fmt.runes (v ++ String "010"%char ""))
                         = (1, Some false, None))
            ("0" :: spellings "f" ++ spellings "false").
Proof.
  split;
    match goal with
    | |- Forall ?P ?l => let l' := eval vm_compute in l in change (Forall P l')
    end;
    repeat (constructor; [vm_compute; split; reflexivity|]); constructor.
Qed.

(** [fmt.Sscanln] on a line that holds one character which is not a
    space and is none of [0 1 t T f F]: [scanBool] reads it, falls out of
    its switch and returns [false] without an error. *)
Lemma Sscanln_bool_other_character (c : ascii) :
  (N_of_ascii c <? 128)%N = true ->
  fmt.isSpace (fmt.rune_of c) = false ->
  existsb (Ascii.eqb c) ["0"; "1"; "t"; "T"; "f"; "F"]%char = false ->
  is_ascii (String c (String "010"%char "")) = true
  /\ fmt.Sscanln_bool (fmt.runes (String c (String "010"%char "")))
     = (1, Some false, None).
Proof.
  destruct c as [[] [] [] [] [] [] [] []]; vm_compute; intros;
    first [congruence | split; reflexivity].
Qed.

(** [setField] on an exported [bool] field, when the scan stores [b] and
    reads one item. *)
Lemma R1_setField_bool_scanned
    (Sscanln : string -> value -> Z * option value * option error)
    (field : Field) (old b : bool) (v fieldKey fieldName : string)
    (t : list event) :
  agrees_on_bool Sscanln ->
  PkgPath field = "" ->
  Val field = Vbool old ->
  is_ascii (v ++ String "010"%char "") = true ->
  fmt.Sscanln_bool (fmt.runes (v ++ String "010"%char "")) = (1, Some b, None) ->
  R1.setField Sscanln field v fieldKey fieldName recording t
  = (mkField (Name field) (PkgPath field) (Tag field) (Vbool b),
     (t ++ [EvSet (Name field) (Vbool b); EvReport fieldKey (Vbool b)])%list,
     Returned None).
Proof.
  intros Hag Hx Hv Hascii Hscan. unfold R1.setField.
  rewrite (CanInterface_exported _ Hx), Hv. cbn [negb CanAddr].
  rewrite (Hag _ old Hascii), Hscan. cbn [option_map Z.eqb Pos.eqb negb].
  unfold store, recording. cbn [Val]. now rewrite <- app_assoc.
Qed.

(** C9.  An exported [bool] field in [setField] (lines 181-192) is read by
    [fmt.Sscanln]: ["1"], ["t"] and ["true"] in any letter case store
    [true], ["0"], ["f"] and ["false"] in any letter case store [false],
    and the boolean is reported; but a value made of one other character
    that is not a space (["2"], ["x"], ["y"], ...) is no error: it stores
    and reports [false], and [setField] returns nil.  In the switch of
    lines 548-555, read by [strconv.ParseBool], every string that is not
    one of its twelve literals is an error, other letter cases of ["true"]
    and ["false"] included. *)
Theorem R1_bool_field_takes_other_character_as_false :
  forall (Sscanln : string -> value -> Z * option value * option error)
         (ParseInt ParseUint : string -> Z -> Z -> Z * option error)
         (ParseFloat : string -> Z -> float * option error)
         (field : Field) (old : bool) (fieldKey fieldName : string)
         (t : list event),
    agrees_on_bool Sscanln ->
    PkgPath field = "" ->
    Val field = Vbool old ->
    (forall v, In v ("1" :: spellings "t" ++ spellings "true") ->
       R1.setField Sscanln field v fieldKey fieldName recording t
       = (mkField (Name field) (PkgPath field) (Tag field) (Vbool true),
          (t ++ [EvSet (Name field) (Vbool true); EvReport fieldKey (Vbool true)])%list,
          Returned None))
    /\ (forall v, In v ("0" :: spellings "f" ++ spellings "false") ->
          R1.setField Sscanln field v fieldKey fieldName recording t
          = (mkField (Name field) (PkgPath field) (Tag field) (Vbool false),
             (t ++ [EvSet (Name field) (Vbool false);
                    EvReport fieldKey (Vbool false)])%list,
             Returned None))
    /\ (forall c : ascii,
          (N_of_ascii c <? 128)%N = true ->
          fmt.isSpace (fmt.rune_of c) = false ->
          existsb (Ascii.eqb c) ["0"; "1"; "t"; "T"; "f"; "F"]%char = false ->
          R1.setField Sscanln field (String c "") fieldKey fieldName recording t
          = (mkField (Name field) (PkgPath field) (Tag field) (Vbool false),
             (t ++ [EvSet (Name field) (Vbool false);
                    EvReport fieldKey (Vbool false)])%list,
             Returned None))
    /\ (forall v,
          ~ In v ["1"; "t"; "T"; "true"; "TRUE"; "True";
                  "0"; "f"; "F"; "false"; "FALSE"; "False"] ->
          R3.coerce ParseInt ParseUint ParseFloat field v fieldKey recording t
          = (field, t, Returned None,
             Some (ErrNotBool v (Name field) (NumError "ParseBool" v)))).
Proof.
  intros Sscanln PI PU PF field old fieldKey fieldName t Hag Hx Hv.
  destruct Sscanln_bool_spellings as [Ht Hf].
  rewrite Forall_forall in Ht, Hf.
  split; [|split; [|split]].
  - intros v Hin. destruct (Ht v Hin) as [Ha Hs].
    exact (R1_setField_bool_scanned Sscanln field old true v fieldKey fieldName t
             Hag Hx Hv Ha Hs).
  - intros v Hin. destruct (Hf v Hin) as [Ha Hs].
    exact (R1_setField_bool_scanned Sscanln field old false v fieldKey fieldName t
             Hag Hx Hv Ha Hs).
  - intros c Hc Hsp Hsix.
    destruct (Sscanln_bool_other_character c Hc Hsp Hsix) as [Ha Hs].
    exact (R1_setField_bool_scanned Sscanln field old false (String c "")
             fieldKey fieldName t Hag Hx Hv Ha Hs).
  - intros v.
    exact (proj2 (proj2 (R3_bool_accepts_twelve_literals PI PU PF field old
                           v fieldKey t Hv))).
Qed.

(** [A bool] holding [true]: the value ["2"] sets it to [false], as does
    ["FALSE"], and ["tRUE"] keeps it [true], without error; in the switch
    of lines 548-555 ["tRUE"] is an error. *)
Lemma R1_bool_field_takes_other_character_as_false_witness :
  R1.setField Samples4.Sscanln
    (mkField "A" "" [("lookup", "A")] (Vbool true)) "2" "A" "A" recording []
  = (mkField "A" "" [("lookup", "A")] (Vbool false),
     [EvSet "A" (Vbool false); EvReport "A" (Vbool false)], Returned None)
  /\ R1.setField Samples4.Sscanln
       (mkField "A" "" [("lookup", "A")] (Vbool true)) "FALSE" "A" "A" recording []
     = (mkField "A" "" [("lookup", "A")] (Vbool false),
        [EvSet "A" (Vbool false); EvReport "A" (Vbool false)], Returned None)
  /\ R1.setField Samples4.Sscanln
       (mkField "A" "" [("lookup", "A")] (Vbool true)) "tRUE" "A" "A" recording []
     = (mkField "A" "" [("lookup", "A")] (Vbool true),
        [EvSet "A" (Vbool true); EvReport "A" (Vbool true)], Returned None)
  /\ R3.coerce Fixtures.parse_int Fixtures.parse_int Fixtures.parse_float
       (mkField "A" "" [("lookup", "A")] (Vbool true)) "tRUE" "A" recording []
     = (mkField "A" "" [("lookup", "A")] (Vbool true), [], Returned None,
        Some (ErrNotBool "tRUE" "A" (NumError "ParseBool" "tRUE"))).
Proof.
  assert (Hag : agrees_on_bool Samples4.Sscanln) by (intros s old _; reflexivity).
  destruct (R1_bool_field_takes_other_character_as_false Samples4.Sscanln
              Fixtures.parse_int Fixtures.parse_int Fixtures.parse_float
              (mkField "A" "" [("lookup", "A")] (Vbool true)) true "A" "A" []
              Hag eq_refl eq_refl) as (Ht & Hf & Hc & Hp).
  split; [|split; [|split]].
  - exact (Hc "2"%char eq_refl eq_refl eq_refl).
  - apply Hf. vm_compute. tauto.
  - apply Ht. vm_compute. tauto.
  - apply Hp. intros Hin. vm_compute in Hin.
    repeat (destruct Hin as [Hin | Hin]; [discriminate Hin|]). exact Hin.
Defined.

(** The same through [Lookup]: ["2"] and ["tRUE"] in the revision of lines
    103-142, and in the one of lines 478-586. *)
Example Lookup_bool_by_revision :
  R1.Lookup Samples4.Sscanln
    (Pointer [mkField "A" "" [("lookup", "A")] (Vbool true);
              mkField "B" "" [("lookup", "B")] (Vbool false)])
    (Some recording) [Fixtures.Env] [("A", "2"); ("B", "tRUE")] []
  = (Pointer [mkField "A" "" [("lookup", "A")] (Vbool false);
              mkField "B" "" [("lookup", "B")] (Vbool true)],
     [("A", "2"); ("B", "tRUE")],
     [EvSet "A" (Vbool false); EvReport "A" (Vbool false);
      EvSet "B" (Vbool true); EvReport "B" (Vbool true)], Returned None)
  /\ R3.Lookup Fixtures.parse_int Fixtures.parse_int Fixtures.parse_float
       (Pointer [mkField "A" "" [("lookup", "A")] (Vbool true);
                 mkField "B" "" [("lookup", "B")] (Vbool false)])
       Fixtures.Env (Some recording) [("A", "2"); ("B", "tRUE")] []
     = (Pointer [mkField "A" "" [("lookup", "A")] (Vbool true);
                 mkField "B" "" [("lookup", "B")] (Vbool false)],
        [("A", "2"); ("B", "tRUE")], [],
        Returned (Some (ErrNotBool "2" "A" (NumError "ParseBool" "2")))).
Proof. split; reflexivity. Qed.

(** * Further properties of the package *)

(** ** Errors of sources, defaults, nested sequences *)

Section SequenceFacts.

Context {W : Type}.
Implicit Types (l : list (Looker W)) (w : W) (r : result).

(** The loop over [a ++ rest] is the loop over [a], then, if that did not
    stop, the loop over [rest]. *)
Lemma lookupKey_loop_app s a : forall rest cur w,
  accepted cur = false ->
  lookupKey_loop s (a ++ rest)%list cur w
  = let '(r, w1) := lookupKey_loop s a cur w in
    if accepted r then (r, w1) else lookupKey_loop s rest r w1.
Proof.
  induction a as [|e a IH]; intros rest cur w Hcur; cbn [app lookupKey_loop].
  - now rewrite Hcur.
  - destruct (e s w) as [r w1]. destruct (accepted r) eqn:Hr.
    + now rewrite Hr.
    + now apply IH.
Qed.

(** With at least one source, what the named results held before the loop
    does not matter. *)
Lemma lookupKey_loop_cur s a : forall cur cur' w,
  a <> [] -> lookupKey_loop s a cur w = lookupKey_loop s a cur' w.
Proof.
  destruct a as [|e a]; intros cur cur' w Ha; [contradiction|].
  cbn [lookupKey_loop]. now destruct (e s w) as [r w1].
Qed.

End SequenceFacts.

(** An error comes out of [lookupKey] only from the last source of the
    list, after every source before it has declined: errors of the
    sources before the last are dropped. *)
Theorem lookupKey_error_is_of_last_source :
  forall (W : Type) (s : string) (l : list (Looker W)) (w w' : W)
         (v : string) (b : bool) (e : error),
    lookupKey s l w = ((v, b, Some e), w') ->
    exists pre last w1,
      l = (pre ++ [last])%list
      /\ declined s pre w w1
      /\ last s w1 = ((v, b, Some e), w').
Proof.
  intros W s l w w' v b e H. unfold lookupKey in H.
  destruct (lookupKey_cases s l w) as [-> | [Hc | Hc]].
  - discriminate.
  - destruct Hc as (pre & x & post & w1 & v' & w2 & -> & Hd & Hx).
    destruct (lookupKey_loop_declined s pre (x :: post) ("", false, None) w w1 Hd)
      as (cur' & Heq & _).
    rewrite Heq in H. cbn [lookupKey_loop] in H. rewrite Hx in H.
    cbn [accepted] in H. discriminate.
  - destruct Hc as (pre & x & w1 & r & w2 & -> & Hd & Hx & Hacc).
    destruct (lookupKey_loop_declined s pre [x] ("", false, None) w w1 Hd)
      as (cur' & Heq & _).
    rewrite Heq in H. cbn [lookupKey_loop] in H. rewrite Hx, Hacc in H.
    inversion H; subst. now exists pre, x, w1.
Qed.

Lemma lookupKey_error_is_of_last_source_witness :
  exists pre last w1,
    [Fixtures.logged "A" ("", false, None); Samples.failing "B"]
    = (pre ++ [last])%list
    /\ declined "K" pre [] w1
    /\ last "K" w1 = (("", false, Some (errorString "unreadable")), ["A"; "B"]).
Proof.
  apply (lookupKey_error_is_of_last_source (list string) "K"
           [Fixtures.logged "A" ("", false, None); Samples.failing "B"]
           [] ["A"; "B"] "" false (errorString "unreadable") eq_refl).
Defined.

(** With a [Map] as last source, as the package documents for the
    defaults, [lookupKey] never returns an error, whatever the earlier
    sources do; and when all of them decline, also by failing, the key is
    answered from the [Map]: its value if it has the key, ["", false, nil]
    if it has not, and the [Map] leaves the world alone. *)
Theorem lookupKey_with_Map_last :
  forall (W : Type) (s : string) (pre : list (Looker W)) (m : Map) (w : W),
    snd (fst (lookupKey s (pre ++ [Map_LookupKey m])%list w)) = None
    /\ (forall w1,
          declined s pre w w1 ->
          lookupKey s (pre ++ [Map_LookupKey m])%list w
          = (match m !! s with
             | Some v => (v, true, None)
             | None => ("", false, None)
             end, w1)).
Proof.
  intros W s pre m w. split.
  - unfold lookupKey. generalize ("", false, @None error) as cur. revert w.
    induction pre as [|e pre IH]; intros w cur; cbn [app lookupKey_loop].
    + unfold Map_LookupKey. destruct (m !! s); reflexivity.
    + destruct (e s w) as [r w1] eqn:He. destruct (accepted r) eqn:Hr; [|apply IH].
      apply accepted_true_iff in Hr as [v ->]. reflexivity.
  - intros w1 Hd. unfold lookupKey.
    destruct (lookupKey_loop_declined s pre [Map_LookupKey m] ("", false, None) w w1 Hd)
      as (cur' & Heq & _).
    rewrite Heq. cbn [lookupKey_loop]. unfold Map_LookupKey.
    destruct (m !! s); reflexivity.
Qed.

(** The first source cannot be read, the defaults answer. *)
Lemma lookupKey_with_Map_last_witness :
  lookupKey "C" [Samples.failing "file"; Map_LookupKey Samples.defaults] []
  = (("-4", true, None), ["file"]).
Proof.
  apply (proj2 (lookupKey_with_Map_last (list string) "C" [Samples.failing "file"]
                  Samples.defaults []) ["file"]).
  eapply declined_cons; [reflexivity | reflexivity | apply declined_nil].
Defined.

(** A [Seq] inside a [Seq] ([R3]): a non-empty inner sequence may be
    spliced into the outer one, wherever it stands, without changing any
    answer or any effect on the world. *)
Theorem Seq_nested_splices :
  forall (W : Type) (s : string) (pre a rest : list (Looker W)) (w : W),
    a <> [] ->
    Seq_LookupKey (pre ++ Seq_LookupKey a :: rest)%list s w
    = Seq_LookupKey (pre ++ a ++ rest)%list s w.
Proof.
  intros W s pre a rest w Ha. unfold Seq_LookupKey at 1 3.
  rewrite !(lookupKey_loop_app s pre) by reflexivity.
  destruct (lookupKey_loop s pre ("", false, None) w) as [r w1].
  destruct (accepted r) eqn:Hr; [reflexivity|].
  rewrite lookupKey_loop_app by exact Hr.
  cbn [lookupKey_loop]. unfold Seq_LookupKey.
  rewrite (lookupKey_loop_cur s a r ("", false, None) w1 Ha).
  destruct (lookupKey_loop s a ("", false, None) w1) as [r' w2].
  now destruct (accepted r').
Qed.

Lemma Seq_nested_splices_witness :
  Seq_LookupKey
    [Samples.failing "A";
     Seq_LookupKey [Fixtures.logged "B" ("", false, None);
                    Fixtures.logged "C" ("x", true, None)];
     Fixtures.logged "D" ("y", true, None)] "K" []
  = Seq_LookupKey
      [Samples.failing "A";
       Fixtures.logged "B" ("", false, None);
       Fixtures.logged "C" ("x", true, None);
       Fixtures.logged "D" ("y", true, None)] "K" [].
Proof.
  apply (Seq_nested_splices (list string) "K" [Samples.failing "A"]
           [Fixtures.logged "B" ("", false, None);
            Fixtures.logged "C" ("x", true, None)]
           [Fixtures.logged "D" ("y", true, None)] []).
  discriminate.
Defined.

(** An empty inner [Seq] is not neutral: as last item it replaces the
    error of the source before it by ["", false, nil]. *)
Example Seq_nested_empty_drops_error :
  Seq_LookupKey [Samples.failing "A"; Seq_LookupKey []] "K" []
  = (("", false, None), ["A"])
  /\ Seq_LookupKey [Samples.failing "A"] "K" []
     = (("", false, Some (errorString "unreadable")), ["A"]).
Proof. split; reflexivity. Qed.

(** ** The form source *)

Lemma form_value_not_empty (v : list string) : String.eqb (form_value v) "" = false.
Proof.
  induction v as [|x v IH]; cbn [form_value]; [reflexivity|].
  now destruct (String.eqb x "") eqn:E.
Qed.

Lemma form_value_first_non_empty (pre : list string) : forall x post,
  Forall (fun y => y = "") pre ->
  String.eqb x "" = false ->
  form_value (pre ++ x :: post) = x.
Proof.
  induction pre as [|y pre IH]; intros x post Hpre Hx; cbn [app form_value].
  - now rewrite Hx.
  - inversion Hpre as [|? ? Hy Hrest]; subst. cbn. now apply IH.
Qed.

Lemma form_value_all_empty (v : list string) :
  Forall (fun y => y = "") v -> form_value v = "1".
Proof.
  induction 1 as [|y v Hy _ IH]; [reflexivity|]. subst y. exact IH.
Qed.

(** [formLooker.LookupKey] after a successful [ParseForm]: a key that the
    form lacks is not found; a key that it has is found with its first
    non-empty value, or with ["1"] when it has none (no value at all, or
    empty values only), so that the value of a found key is never empty.
    When [ParseForm] fails, its wrapped error is returned with
    [found = false], whatever the key. *)
Theorem formLooker_found_value_never_empty :
  forall (W : Type)
         (ParseForm : W -> (option error * gmap string (list string)) * W)
         (wrap : error -> error) (k : string) (w w' : W)
         (err : option error) (Form : gmap string (list string)),
    ParseForm w = ((err, Form), w') ->
    (forall e, err = Some e ->
       formLooker_LookupKey ParseForm wrap k w = (("", false, Some (wrap e)), w'))
    /\ (err = None -> Form !! k = None ->
        formLooker_LookupKey ParseForm wrap k w = (("", false, None), w'))
    /\ (forall v, err = None -> Form !! k = Some v ->
          formLooker_LookupKey ParseForm wrap k w = ((form_value v, true, None), w')
          /\ String.eqb (form_value v) "" = false
          /\ (Forall (fun y => y = "") v -> form_value v = "1")
          /\ (forall pre x post,
                v = (pre ++ x :: post)%list ->
                Forall (fun y => y = "") pre ->
                String.eqb x "" = false ->
                form_value v = x)).
Proof.
  intros W ParseForm wrap k w w' err Form HP.
  unfold formLooker_LookupKey. rewrite HP. split; [|split].
  - now intros e ->.
  - now intros -> ->.
  - intros v -> ->. split; [reflexivity|]. split; [apply form_value_not_empty|].
    split; [apply form_value_all_empty|].
    intros pre x post -> Hpre Hx. now apply form_value_first_non_empty.
Qed.

(** [?debug&name=&name=x]: [debug] reads as ["1"], [name] as ["x"]. *)
Lemma formLooker_found_value_never_empty_witness :
  formLooker_LookupKey Samples2.parsed id "debug" Samples2.form
  = (("1", true, None), Samples2.form)
  /\ formLooker_LookupKey Samples2.parsed id "name" Samples2.form
     = (("x", true, None), Samples2.form).
Proof.
  split.
  - apply (proj1 (proj2 (proj2 (formLooker_found_value_never_empty _
             Samples2.parsed id "debug" Samples2.form Samples2.form None
             Samples2.form eq_refl)) [""] eq_refl eq_refl)).
  - apply (proj1 (proj2 (proj2 (formLooker_found_value_never_empty _
             Samples2.parsed id "name" Samples2.form Samples2.form None
             Samples2.form eq_refl)) [""; "x"] eq_refl eq_refl)).
Defined.

(** ** The JSON sources *)

Section JSONFacts.

Context {W J File : Type}.
Variable Sprint : J -> string.
Variable Open : string -> W -> (File + error) * W.
Variable Decode : File -> gmap string J -> W
                  -> (option (gmap string J) * option error) * W.
Variable Close : File -> W -> W.

(** Once [l.data] is not nil, [LookupKey] answers from it: no error, the
    looker and the world as they were. *)
Lemma jsonLooker_loaded (name : string) (m : gmap string J) (k : string) (w : W) :
  jsonLooker_LookupKey Sprint Open Decode Close (mkJsonLooker name (Some m)) k w
  = (match m !! k with
     | Some v => (Sprint v, true, None)
     | None => ("", false, None)
     end, mkJsonLooker name (Some m), w).
Proof. reflexivity. Qed.

End JSONFacts.

(** A [jsonLooker] whose file cannot be opened returns the error of
    [os.Open] on the first call only: it keeps an empty map, so that every
    later call, for any key and in any world, answers ["", false, nil]
    without touching the file system again. *)
Theorem jsonLooker_failed_open_is_not_retried :
  forall (W J File : Type) (Sprint : J -> string)
         (Open : string -> W -> (File + error) * W)
         (Decode : File -> gmap string J -> W
                   -> (option (gmap string J) * option error) * W)
         (Close : File -> W -> W)
         (name k : string) (w w1 : W) (e : error),
    Open name w = (inr e, w1) ->
    jsonLooker_LookupKey Sprint Open Decode Close (NewJSONFile name) k w
    = (("", false, Some e), mkJsonLooker name (Some ∅), w1)
    /\ (forall k' w2,
          jsonLooker_LookupKey Sprint Open Decode Close
            (mkJsonLooker name (Some ∅)) k' w2
          = (("", false, None), mkJsonLooker name (Some ∅), w2)).
Proof.
  intros W J File Sprint Open Decode Close name k w w1 e HO. split.
  - unfold jsonLooker_LookupKey, NewJSONFile. cbn [data filename]. now rewrite HO.
  - intros k' w2. rewrite jsonLooker_loaded. now rewrite lookup_empty.
Qed.

Lemma jsonLooker_failed_open_is_not_retried_witness :
  jsonLooker_LookupKey id Samples2.no_file Samples2.decode_B Samples2.close
    (NewJSONFile "/etc/my-server.json") "B" 0%nat
  = (("", false, Some (errorString "no such file")),
     mkJsonLooker "/etc/my-server.json" (Some ∅), 1%nat).
Proof.
  apply (proj1 (jsonLooker_failed_open_is_not_retried nat string unit id
                  Samples2.no_file Samples2.decode_B Samples2.close
                  "/etc/my-server.json" "B" 0%nat 1%nat
                  (errorString "no such file") eq_refl)).
Defined.

(** A [jsonLooker] reads its file on the first call and then never again:
    when the file opens and decodes to the map [m], the first call closes
    the file and answers from [m], and every later call answers from [m]
    with the looker and the world left as they are.  A key of [m] is
    found with the printed form of its value, another key is not found,
    and there is no error. *)
Theorem jsonLooker_reads_file_once :
  forall (W J File : Type) (Sprint : J -> string)
         (Open : string -> W -> (File + error) * W)
         (Decode : File -> gmap string J -> W
                   -> (option (gmap string J) * option error) * W)
         (Close : File -> W -> W)
         (name k : string) (w w1 w2 : W) (f : File) (m : gmap string J),
    Open name w = (inl f, w1) ->
    Decode f ∅ w1 = ((Some m, None), w2) ->
    jsonLooker_LookupKey Sprint Open Decode Close (NewJSONFile name) k w
    = (match m !! k with
       | Some v => (Sprint v, true, None)
       | None => ("", false, None)
       end, mkJsonLooker name (Some m), Close f w2)
    /\ (forall k' w3,
          jsonLooker_LookupKey Sprint Open Decode Close
            (mkJsonLooker name (Some m)) k' w3
          = (match m !! k' with
             | Some v => (Sprint v, true, None)
             | None => ("", false, None)
             end, mkJsonLooker name (Some m), w3)).
Proof.
  intros W J File Sprint Open Decode Close name k w w1 w2 f m HO HD. split.
  - unfold jsonLooker_LookupKey, NewJSONFile. cbn [data filename].
    rewrite HO, HD. reflexivity.
  - intros k' w3. apply jsonLooker_loaded.
Qed.

Lemma jsonLooker_reads_file_once_witness :
  jsonLooker_LookupKey id Samples2.one_file Samples2.decode_B Samples2.close
    (NewJSONFile "testdata/lookup.json") "B" 0%nat
  = (("2", true, None),
     mkJsonLooker "testdata/lookup.json" (Some {[ "B" := "2" ]}), 1%nat).
Proof.
  rewrite (proj1 (jsonLooker_reads_file_once nat string unit id
                    Samples2.one_file Samples2.decode_B Samples2.close
                    "testdata/lookup.json" "B" 0%nat 1%nat 1%nat tt
                    {[ "B" := "2" ]} eq_refl eq_refl)).
  reflexivity.
Defined.

(** A [jsonRequestLooker] decodes the body on the first call and, if the
    decoder leaves a map [m] (with or without error), never again: the
    first call returns the decoder's error, if any, with [found = false],
    and otherwise answers from [m]; every later call answers from [m]
    without error and leaves the looker and the world as they are. *)
Theorem jsonRequestLooker_decodes_body_once :
  forall (W J File : Type) (Sprint : J -> string)
         (Decode : File -> gmap string J -> W
                   -> (option (gmap string J) * option error) * W)
         (Close : File -> W -> W)
         (body : File) (k : string) (w w1 : W) (m : gmap string J)
         (err : option error),
    Decode body ∅ w = ((Some m, err), w1) ->
    jsonRequestLooker_LookupKey Sprint Decode Close (NewJSONRequest body) k w
    = (match err with
       | Some e => ("", false, Some e)
       | None =>
           match m !! k with
           | Some v => (Sprint v, true, None)
           | None => ("", false, None)
           end
       end, mkJsonRequestLooker body (Some m), Close body w1)
    /\ (forall k' w2,
          jsonRequestLooker_LookupKey Sprint Decode Close
            (mkJsonRequestLooker body (Some m)) k' w2
          = (match m !! k' with
             | Some v => (Sprint v, true, None)
             | None => ("", false, None)
             end, mkJsonRequestLooker body (Some m), w2)).
Proof.
  intros W J File Sprint Decode Close body k w w1 m err HD. split.
  - unfold jsonRequestLooker_LookupKey, NewJSONRequest. cbn [rdata Body].
    rewrite HD. now destruct err.
  - intros k' w2. reflexivity.
Qed.

Lemma jsonRequestLooker_decodes_body_once_witness :
  jsonRequestLooker_LookupKey id Samples2.decode_B Samples2.close
    (NewJSONRequest tt) "B" 0%nat
  = (("2", true, None), mkJsonRequestLooker tt (Some {[ "B" := "2" ]}), 0%nat).
Proof.
  rewrite (proj1 (jsonRequestLooker_decodes_body_once nat string unit id
                    Samples2.decode_B Samples2.close tt "B" 0%nat 0%nat
                    {[ "B" := "2" ]} None eq_refl)).
  reflexivity.
Defined.

(** ** The arguments source *)

Lemma strip_prefix_app (p s : string) : strip_prefix p (p ++ s) = Some s.
Proof.
  induction p as [|c p IH]; [reflexivity|].
  change (String c p ++ s) with (String c (p ++ s)). cbn [strip_prefix].
  now rewrite Ascii.eqb_refl.
Qed.

Lemma cut_eq_no_eq (name : string) :
  has_char "="%char name = false -> cut_eq name = (name, None).
Proof.
  unfold has_char.
  induction name as [|c name IH]; cbn [list_ascii_of_string existsb cut_eq];
    intros H; [reflexivity|].
  apply orb_false_iff in H as [Hc Hn].
  rewrite Ascii.eqb_sym, Hc, (IH Hn). reflexivity.
Qed.

Lemma cut_eq_assign (name val : string) :
  has_char "="%char name = false ->
  cut_eq (name ++ "=" ++ val) = (name, Some val).
Proof.
  unfold has_char.
  induction name as [|c name IH]; intros H; [reflexivity|].
  change (String c name ++ "=" ++ val) with (String c (name ++ "=" ++ val)).
  cbn [list_ascii_of_string existsb cut_eq] in *.
  apply orb_false_iff in H as [Hc Hn].
  rewrite Ascii.eqb_sym, Hc, (IH Hn). reflexivity.
Qed.

(** What [cut_eq] cuts off was part of the string. *)
Lemma cut_eq_newline (s : string) : forall name val,
  cut_eq s = (name, Some val) ->
  has_newline val = true -> has_newline s = true.
Proof.
  unfold has_newline.
  induction s as [|c s IH]; cbn [cut_eq list_ascii_of_string existsb];
    intros name val H Hn; [discriminate|].
  destruct (Ascii.eqb c "="%char).
  - inversion H; subst. rewrite Hn. apply orb_true_r.
  - destruct (cut_eq s) as [n v] eqn:E. inversion H; subst.
    rewrite (IH n val eq_refl Hn). apply orb_true_r.
Qed.

(** [-KEY=value] and [-KEY]. *)
Lemma arg_entry_assign (prefix name val : string) :
  has_char "="%char name = false -> has_newline val = false ->
  arg_entry prefix (prefix ++ name ++ "=" ++ val) = Some (name, val).
Proof.
  intros Hn Hv. unfold arg_entry, FindStringSubmatch.
  now rewrite strip_prefix_app, cut_eq_assign, Hv.
Qed.

Lemma arg_entry_flag (prefix name : string) :
  has_char "="%char name = false ->
  arg_entry prefix (prefix ++ name) = Some (name, "1").
Proof.
  intros Hn. unfold arg_entry, FindStringSubmatch.
  now rewrite strip_prefix_app, cut_eq_no_eq.
Qed.

(** The loop in terms of what each argument contributes. *)
Lemma Args_loop_spec (prefix : string) (a : list string) : forall extra d,
  Args_loop prefix a extra d
  = ((extra ++ List.filter (fun arg => negb (is_arg prefix arg)) a)%list,
     fold_left (fun d arg => match arg_entry prefix arg with
                             | Some (k, v) => <[k := v]> d
                             | None => d
                             end) a d).
Proof.
  induction a as [|arg a IH]; intros extra d; cbn [Args_loop List.filter fold_left].
  - now rewrite app_nil_r.
  - unfold is_arg, arg_entry. unfold FindStringSubmatch.
    destruct (strip_prefix prefix arg) as [rest|].
    + destruct (cut_eq rest) as [name [val|]].
      * destruct (has_newline val); rewrite IH; cbn; [now rewrite <- app_assoc|reflexivity].
      * rewrite IH. reflexivity.
    + rewrite IH. cbn. now rewrite <- app_assoc.
Qed.

Lemma Args_fold_absent (prefix k : string) (a : list string) : forall d : Map,
  (forall x v, In x a -> arg_entry prefix x <> Some (k, v)) ->
  fold_left (fun d arg => match arg_entry prefix arg with
                          | Some (k, v) => <[k := v]> d
                          | None => d
                          end) a d !! k = d !! k.
Proof.
  induction a as [|arg a IH]; intros d H; cbn [fold_left]; [reflexivity|].
  rewrite IH by (intros x v Hx; apply H; now right).
  destruct (arg_entry prefix arg) as [[k' v']|] eqn:E; [|reflexivity].
  apply lookup_insert_ne. intros ->. now apply (H arg v' (or_introl eq_refl)).
Qed.

Lemma Args_fold_last (prefix k v : string) (pre : list string) :
  forall (arg : string) (post : list string) (d : Map),
  arg_entry prefix arg = Some (k, v) ->
  (forall x v', In x post -> arg_entry prefix x <> Some (k, v')) ->
  fold_left (fun d arg => match arg_entry prefix arg with
                          | Some (k, v) => <[k := v]> d
                          | None => d
                          end) (pre ++ arg :: post) d !! k = Some v.
Proof.
  intros arg post d Harg Hpost.
  rewrite fold_left_app. cbn [fold_left]. rewrite Harg.
  rewrite Args_fold_absent by exact Hpost. apply lookup_insert_eq.
Qed.

(** [ArgsLooker]: the last argument that names a key decides its value.
    An argument [<prefix><KEY>=<value>] gives [value], be it empty, and an
    argument [<prefix><KEY>] gives ["1"], provided no later argument names
    the same key; the key is then found, without error. *)
Theorem ArgsLooker_last_argument_wins :
  forall (prefix name val : string) (pre post : list string),
    has_char "="%char name = false ->
    has_newline val = false ->
    (forall x v', In x post -> arg_entry prefix x <> Some (name, v')) ->
    fst (ArgsLooker_LookupKey
           (NewArgs prefix (pre ++ (prefix ++ name ++ "=" ++ val) :: post)) name)
    = (val, true, None)
    /\ fst (ArgsLooker_LookupKey
              (NewArgs prefix (pre ++ (prefix ++ name) :: post)) name)
       = ("1", true, None).
Proof.
  intros prefix name val pre post Hn Hv Hpost.
  unfold ArgsLooker_LookupKey, NewArgs. cbn [adata rex args extraArgs fst].
  rewrite !Args_loop_spec. cbn [adata].
  rewrite (Args_fold_last prefix name val pre _ post ∅ (arg_entry_assign _ _ _ Hn Hv) Hpost).
  rewrite (Args_fold_last prefix name "1" pre _ post ∅ (arg_entry_flag _ _ Hn) Hpost).
  split; reflexivity.
Qed.

(** The arguments of the package's test: [-A=1] is read as ["1"], and
    [--A=really] names the other key [-A]. *)
Lemma ArgsLooker_last_argument_wins_witness :
  fst (ArgsLooker_LookupKey
         (NewArgs "-" ["-A=1"; "-B="; "-C=2"; "-D"; "--A=really"; "--other"; "blah"])
         "A")
  = ("1", true, None).
Proof.
  refine (proj1 (ArgsLooker_last_argument_wins "-" "A" "1" []
                   ["-B="; "-C=2"; "-D"; "--A=really"; "--other"; "blah"]
                   eq_refl eq_refl _)).
  intros x v' Hx. repeat (destruct Hx as [<- | Hx]; [discriminate|]). destruct Hx.
Defined.

(** [ArgsLooker]: a key that no argument names is not found, without
    error; the arguments that are not of the form [<prefix><KEY>] or
    [<prefix><KEY>=<value>] are kept, in their order, as [ExtraArgs]; and
    the arguments are processed by the first call only: a second call, for
    any key, leaves the looker as it is. *)
Theorem ArgsLooker_processes_arguments_once :
  forall (prefix k k' : string) (a : list string),
    let l1 := snd (ArgsLooker_LookupKey (NewArgs prefix a) k) in
    ExtraArgs (NewArgs prefix a) = []
    /\ ExtraArgs l1
       = List.filter (fun arg => negb (is_arg prefix arg)) a
    /\ snd (ArgsLooker_LookupKey l1 k') = l1
    /\ fst (ArgsLooker_LookupKey l1 k') = fst (ArgsLooker_LookupKey (NewArgs prefix a) k')
    /\ ((forall x v, In x a -> arg_entry prefix x <> Some (k, v)) ->
        fst (ArgsLooker_LookupKey (NewArgs prefix a) k) = ("", false, None)).
Proof.
  intros prefix k k' a l1. subst l1.
  unfold ArgsLooker_LookupKey, NewArgs, ExtraArgs.
  cbn [adata rex args extraArgs fst snd]. rewrite Args_loop_spec.
  cbn [adata rex args extraArgs fst snd app].
  repeat split; trivial.
  intros H. now rewrite (Args_fold_absent prefix k a ∅ H).
Qed.

Lemma ArgsLooker_processes_arguments_once_witness :
  ExtraArgs (snd (ArgsLooker_LookupKey
                    (NewArgs "-" ["-A=1"; "-B="; "-C=2"; "-D"; "--A=really"; "--other"; "blah"])
                    "A"))
  = ["blah"].
Proof.
  rewrite (proj1 (proj2 (ArgsLooker_processes_arguments_once "-" "A" "A"
             ["-A=1"; "-B="; "-C=2"; "-D"; "--A=really"; "--other"; "blah"]))).
  reflexivity.
Defined.

(** With the empty prefix every argument without newline is of the
    looker's form: nothing is left as [ExtraArgs]. *)
Theorem ArgsLooker_empty_prefix_takes_all :
  forall (k : string) (a : list string),
    Forall (fun arg => has_newline arg = false) a ->
    ExtraArgs (snd (ArgsLooker_LookupKey (NewArgs "" a) k)) = [].
Proof.
  intros k a Ha.
  unfold ArgsLooker_LookupKey, NewArgs, ExtraArgs.
  cbn [adata rex args extraArgs fst snd]. rewrite Args_loop_spec.
  cbn [adata rex args extraArgs fst snd app].
  induction Ha as [|arg a Harg _ IH]; [reflexivity|].
  cbn [List.filter]. rewrite IH.
  unfold is_arg, arg_entry, FindStringSubmatch. cbn [strip_prefix].
  destruct (cut_eq arg) as [name [val|]] eqn:E; [|reflexivity].
  destruct (has_newline val) eqn:Hv; [|reflexivity].
  rewrite (cut_eq_newline arg name val E Hv) in Harg. discriminate.
Qed.

Lemma ArgsLooker_empty_prefix_takes_all_witness :
  ExtraArgs (snd (ArgsLooker_LookupKey (NewArgs "" ["A=0"; "B"; "-C-=2"; "blah"]) "A"))
  = [].
Proof.
  apply (ArgsLooker_empty_prefix_takes_all "A" ["A=0"; "B"; "-C-=2"; "blah"]).
  repeat constructor.
Defined.

(** ** The pass: what it leaves alone *)

Lemma findTag_unmatched (tg : reflect.StructTag) :
  (forall d, In d lookupTags -> matches tg d = false) ->
  R1.findTag tg = (notFound, false).
Proof.
  intros H. unfold R1.findTag.
  rewrite <- (app_nil_r lookupTags). now rewrite findTag_loop_skip.
Qed.

(** A record none of whose fields has a [json] or [lookup] tag with a
    value is passed without error and without any effect: no field is
    changed, no source is called, nothing is reported. *)
Theorem R1_Lookup_untagged_record_untouched :
  forall (W : Type) (Sscanln : string -> value -> Z * option value * option error)
         (r : option Reporter) (seq : list (Looker W)) (fields : list Field)
         (w : W) (t : list event),
    (forall f d, In f fields -> In d lookupTags -> matches (Tag f) d = false) ->
    R1.Lookup Sscanln (Pointer fields) r seq w t
    = (Pointer fields, w, t, Returned None).
Proof.
  intros W Sscanln r seq fields w t H. unfold R1.Lookup.
  assert (E : R1.Lookup_fields Sscanln fields (orDiscard r) seq w t
              = (fields, w, t, Returned None)).
  { induction fields as [|f fields IH]; [reflexivity|].
    cbn [R1.Lookup_fields].
    rewrite (findTag_unmatched (Tag f)) by (intros d; apply H; now left).
    cbn. rewrite IH; [reflexivity|].
    intros f' d Hf. apply H. now right. }
  now rewrite E.
Qed.

(** A struct with [xml] tags only, and a source that would answer. *)
Lemma R1_Lookup_untagged_record_untouched_witness :
  R1.Lookup Fixtures.scan_bool
    (Pointer [mkField "A" "" [("xml", "A")] (Vstring "old"); mkField "B" "" [] (Vbool true)])
    (Some recording) [Fixtures.logged "S" ("new", true, None)] [] []
  = (Pointer [mkField "A" "" [("xml", "A")] (Vstring "old"); mkField "B" "" [] (Vbool true)],
     [], [], Returned None).
Proof.
  apply (R1_Lookup_untagged_record_untouched (list string) Fixtures.scan_bool
           (Some recording) [Fixtures.logged "S" ("new", true, None)]
           [mkField "A" "" [("xml", "A")] (Vstring "old"); mkField "B" "" [] (Vbool true)]
           [] []).
  intros f d Hf Hd.
  repeat (destruct Hf as [<- | Hf];
          [repeat (destruct Hd as [<- | Hd]; [reflexivity|]); destruct Hd|]).
  destruct Hf.
Defined.

(** When the sources answer a tagged field's key with an error, [Lookup]
    stops with "lookup for for field ... failed" naming the field and the
    error, be the field optional or not and whatever the rest of the
    answer; the field and the fields after it are as they were, and the
    log is the one the earlier fields left. *)
Theorem R1_Lookup_source_error_aborts :
  forall (W : Type) (Sscanln : string -> value -> Z * option value * option error)
         (r : option Reporter) (seq : list (Looker W))
         (pre post pre' : list Field) (field : Field)
         (w w1 w2 : W) (t t1 : list event) (k v : string) (opt b : bool) (e : error),
    R1.Lookup Sscanln (Pointer pre) r seq w t
    = (Pointer pre', w1, t1, Returned None) ->
    R1.findTag (Tag field) = (k, opt) ->
    String.eqb k notFound = false ->
    lookupKey k seq w1 = ((v, b, Some e), w2) ->
    R1.Lookup Sscanln (Pointer (pre ++ field :: post)%list) r seq w t
    = (Pointer (pre' ++ field :: post)%list, w2, t1,
       Returned (Some (ErrLookupFailed (Name field) e))).
Proof.
  intros W Sscanln r seq pre post pre' field w w1 w2 t t1 k v opt b e
    Hpre Htag Hne Hk.
  unfold R1.Lookup in *.
  destruct (R1.Lookup_fields Sscanln pre (orDiscard r) seq w t)
    as [[[p0 w0] t0] e0] eqn:E.
  inversion Hpre; subst.
  rewrite (R1_Lookup_fields_app Sscanln _ _ _ _ _ _ _ _ _ E).
  cbn [R1.Lookup_fields]. rewrite Htag, Hne, Hk. reflexivity.
Qed.

(** An optional field whose only source fails. *)
Lemma R1_Lookup_source_error_aborts_witness :
  R1.Lookup Fixtures.scan_bool
    (Pointer [mkField "A" "" [("lookup", "A,optional")] (Vbool true);
              mkField "D" "" [("lookup", "D")] (Vstring "")])
    (Some recording) [Samples.failing "file"] [] []
  = (Pointer [mkField "A" "" [("lookup", "A,optional")] (Vbool true);
              mkField "D" "" [("lookup", "D")] (Vstring "")],
     ["file"], [],
     Returned (Some (ErrLookupFailed "A" (errorString "unreadable")))).
Proof.
  apply (R1_Lookup_source_error_aborts (list string) Fixtures.scan_bool
           (Some recording) [Samples.failing "file"]
           [] [mkField "D" "" [("lookup", "D")] (Vstring "")] []
           (mkField "A" "" [("lookup", "A,optional")] (Vbool true))
           [] [] ["file"] [] [] "A" "" true false (errorString "unreadable")
           eq_refl eq_refl eq_refl eq_refl).
Defined.

(** ** The reporters *)

Section LogInvariants.

Context {W : Type}.
Variable Sscanln : string -> value -> Z * option value * option error.
Variable r : Reporter.
Variable I : list event -> Prop.
Hypothesis I_store : forall name v t, I t -> I (t ++ [EvSet name v])%list.
Hypothesis I_report : forall key e t, I t -> I (r key e t).

Lemma R1_setField_log_invariant (field : Field) (v fieldKey fieldName : string)
    (t : list event) :
  forall field' t' err,
    I t ->
    R1.setField Sscanln field v fieldKey fieldName r t = (field', t', err) ->
    I t'.
Proof using I_store I_report.
  intros field' t' err Ht H. unfold R1.setField, store in H.
  destruct (CanInterface field); cbn [negb] in H; [|inversion H; subst; auto].
  destruct (Val field); cbn [CanAddr negb] in H.
  1: inversion H; subst; auto.
  1: destruct (base64.DecodeString v) as [b' [e|]]; inversion H; subst; auto.
  all: destruct (Sscanln _ _) as [[n [x|]] [e|]];
    try destruct (n =? 1); cbn [negb] in H; inversion H; subst; auto.
Qed.

(** A property of logs that stores and the reporter keep is kept by a
    pass. *)
Lemma R1_Lookup_fields_log_invariant (seq : list (Looker W)) (fields : list Field) :
  forall fields' w w' t t' err,
    I t ->
    R1.Lookup_fields Sscanln fields r seq w t = (fields', w', t', err) ->
    I t'.
Proof using I_store I_report.
  induction fields as [|f fields IH]; intros fields' w w' t t' err Ht H.
  - now inversion H; subst.
  - cbn [R1.Lookup_fields] in H.
    destruct (R1.findTag (Tag f)) as [k opt].
    destruct (String.eqb k notFound).
    { destruct (R1.Lookup_fields Sscanln fields r seq w t) as [[[fs w0] t0] e0] eqn:E.
      inversion H; subst. eapply IH; eauto. }
    destruct (lookupKey k seq w) as [[[v ok] [e|]] w0]; [now inversion H; subst|].
    destruct ok.
    + destruct (R1.setField Sscanln f v k (Name f) r t) as [[f1 t1] e1] eqn:Es.
      pose proof (R1_setField_log_invariant _ _ _ _ _ _ _ _ Ht Es) as Ht1.
      destruct e1 as [[e1|]|msg]; [now inversion H; subst| |now inversion H; subst].
      destruct (R1.Lookup_fields Sscanln fields r seq w0 t1) as [[[fs w1] t2] e2] eqn:E.
      inversion H; subst. eapply IH; eauto.
    + destruct opt; cbn [negb] in H; [|now inversion H; subst].
      destruct (R1.Lookup_fields Sscanln fields r seq w0 _) as [[[fs w1] t2] e2] eqn:E.
      inversion H; subst. eapply IH; [|exact E]. now apply I_report.
Qed.

End LogInvariants.

(** A pass that reports through [FilterSecretsReporter] never hands the
    value of a protected key to the embedded reporter: every report the
    embedded reporter receives for a key that the expression matches
    carries ["(empty)"] or ["(not empty)"], however the pass ends (without
    error, with an error or by a panic). *)
Theorem R1_Lookup_through_filter_masks_protected_keys :
  forall (W : Type) (Sscanln : string -> value -> Z * option value * option error)
         (Sprint : value -> string) (MatchString : string -> bool)
         (seq : list (Looker W)) (fields fields' : list Field)
         (w w' : W) (t t' : list event) (out : outcome),
    masked MatchString t ->
    R1.Lookup_fields Sscanln fields
      (FilterSecretsReporter Sprint recording MatchString) seq w t
      = (fields', w', t', out) ->
    masked MatchString t'.
Proof.
  intros W Sscanln Sprint M seq fields fields' w w' t t' out Ht H.
  eapply (R1_Lookup_fields_log_invariant Sscanln
            (FilterSecretsReporter Sprint recording M) (masked M)); eauto.
  - intros name v t0 H0 key e Hin Hk.
    apply in_app_or in Hin as [Hin | [Hin | []]]; [eauto | discriminate].
  - intros key e t0 H0 key' e' Hin Hk.
    unfold FilterSecretsReporter, FilterSecretsReporter_Report, recording in Hin.
    apply in_app_or in Hin as [Hin | [Hin | []]]; [eauto|].
    inversion Hin; subst. rewrite Hk.
    destruct (String.eqb (Sprint e) ""); auto.
Qed.

(** The struct of the package's test: the secret is reported as
    ["(not empty)"], the public value as it is. *)
Lemma R1_Lookup_through_filter_masks_protected_keys_witness :
  masked Samples3.secret
    [EvSet "AnySecret" (Vstring "007 identity");
     EvReport "ANY_SECRET" (Vstring "(not empty)");
     EvSet "Public" (Vstring "Old news");
     EvReport "PUBLIC" (Vstring "Old news")].
Proof.
  apply (R1_Lookup_through_filter_masks_protected_keys (list (string * string))
           Fixtures.scan_bool Samples3.sprint Samples3.secret [Fixtures.Env]
           [mkField "AnySecret" "" [("lookup", "ANY_SECRET")] (Vstring "");
            mkField "Public" "" [("json", "PUBLIC,omitempty")] (Vstring "")]
           [mkField "AnySecret" "" [("lookup", "ANY_SECRET")] (Vstring "007 identity");
            mkField "Public" "" [("json", "PUBLIC,omitempty")] (Vstring "Old news")]
           [("ANY_SECRET", "007 identity"); ("PUBLIC", "Old news")]
           [("ANY_SECRET", "007 identity"); ("PUBLIC", "Old news")]
           [] _ (Returned None)).
  - intros key e [].
  - reflexivity.
Defined.

(** [FilterSecretsReporter] in front of [FmtReporter]: for a protected key
    the line written is [<prefix><key>=(empty)] or
    [<prefix><key>=(not empty)], according to whether the value prints as
    the empty string, and for any other key it is [<prefix><key>=] followed
    by the printed value; what was written before is kept.  So two values
    of a protected key that are both empty, or both not, give the same
    output. *)
Theorem FilterSecretsReporter_over_FmtReporter_line :
  forall (Sprint : value -> string) (MatchString : string -> bool)
         (Prefix key : string) (e : value) (out : string),
    (forall s, Sprint (Vstring s) = s) ->
    FilterSecretsReporter Sprint (FmtReporter Sprint Prefix) MatchString key e out
    = out ++ Prefix ++ key ++ "="
      ++ (if MatchString key
          then (if String.eqb (Sprint e) "" then "(empty)" else "(not empty)")
          else Sprint e)
      ++ String "010"%char "".
Proof.
  intros Sprint M Prefix key e out HS.
  unfold FilterSecretsReporter, FilterSecretsReporter_Report, FmtReporter.
  now rewrite HS.
Qed.

Lemma FilterSecretsReporter_over_FmtReporter_line_witness :
  FilterSecretsReporter Samples3.sprint (FmtReporter Samples3.sprint "- ")
    Samples3.secret "ANY_SECRET" (Vstring "007 identity") ""
  = "- ANY_SECRET=(not empty)" ++ String "010"%char "".
Proof.
  apply (FilterSecretsReporter_over_FmtReporter_line Samples3.sprint
           Samples3.secret "- " "ANY_SECRET" (Vstring "007 identity") "").
  reflexivity.
Defined.

Lemma replay_MapReporter_absent (Sprint : value -> string) (key : string)
    (calls : list (string * value)) : forall dest : Map,
  (forall c, In c calls -> fst c <> key) ->
  replay (MapReporter Sprint) calls dest !! key = dest !! key.
Proof.
  unfold replay.
  induction calls as [|c calls IH]; intros dest H; cbn [fold_left]; [reflexivity|].
  rewrite IH by (intros c' Hc; apply H; now right).
  unfold MapReporter. apply lookup_insert_ne.
  apply (H c). now left.
Qed.

(** A [MapReporter] holds, for each key, the printed form of the value of
    the last report for that key: after the calls [pre], [Report(key, e)]
    and calls [post] for other keys, its [Map], used as a source, answers
    [key] with [fmt.Sprint(e)], found and without error; a key that was
    never reported to a new [MapReporter] is not found in its [Map]. *)
Theorem MapReporter_keeps_last_report :
  forall (W : Type) (Sprint : value -> string) (key : string) (e : value)
         (pre post : list (string * value)) (dest : Map) (w : W),
    (forall c, In c post -> fst c <> key) ->
    Map_LookupKey (replay (MapReporter Sprint) (pre ++ (key, e) :: post) dest) key w
    = ((Sprint e, true, None), w)
    /\ ((forall c, In c pre -> fst c <> key) ->
        Map_LookupKey (replay (MapReporter Sprint) (pre ++ post) NewMapReporter) key w
        = (("", false, None), w)).
Proof.
  intros W Sprint key e pre post dest w Hpost. split.
  - unfold Map_LookupKey, replay. rewrite fold_left_app. cbn [fold_left fst snd].
    fold (replay (MapReporter Sprint) post
            (MapReporter Sprint key e (fold_left
               (fun s c => MapReporter Sprint (fst c) (snd c) s) pre dest))).
    rewrite replay_MapReporter_absent by exact Hpost.
    unfold MapReporter at 1.
    match goal with
    | |- context [?m !! key] =>
        assert (H : m !! key = Some (Sprint e)) by apply lookup_insert_eq;
        rewrite H
    end.
    reflexivity.
  - intros Hpre. unfold Map_LookupKey. rewrite replay_MapReporter_absent.
    + reflexivity.
    + intros c Hc. apply in_app_or in Hc as [Hc | Hc]; auto.
Qed.

(** The reports of the package's test, replayed. *)
Lemma MapReporter_keeps_last_report_witness :
  Map_LookupKey
    (replay (MapReporter Samples3.sprint)
       [("ANY_SECRET", Vstring "007 identity"); ("SECRET_AS_WELL", Vstring "");
        ("PUBLIC", Vstring "Old news")] NewMapReporter) "SECRET_AS_WELL" tt
  = (("", true, None), tt).
Proof.
  refine (proj1 (MapReporter_keeps_last_report unit Samples3.sprint
                   "SECRET_AS_WELL" (Vstring "")
                   [("ANY_SECRET", Vstring "007 identity")]
                   [("PUBLIC", Vstring "Old news")] NewMapReporter tt _)).
  intros c [<- | []]. discriminate.
Defined.

(** ** The revision with the [strconv] setters (lines 388-631) *)

Section R3PassFacts.

Context {W : Type}.
Variable ParseInt ParseUint : string -> Z -> Z -> Z * option error.
Variable ParseFloat : string -> Z -> float * option error.


End R3PassFacts.

(** An exported field with a [lookup] tag whose value was found is parsed
    at the width of its own type ([int] and [uint] at 64 bits), stored at
    its own type, and reported as [int64], [uint64] or [float64] whatever
    that type; the pass then goes on with the next field. *)
Theorem R3_number_parsed_at_width_reported_as_64_bit :
  forall (W : Type) (ParseInt ParseUint : string -> Z -> Z -> Z * option error)
         (ParseFloat : string -> Z -> float * option error)
         (l : Looker W) (r : Reporter) (field : Field) (rest : list Field)
         (w w1 : W) (t : list event) (k v : string) (opt : bool),
    PkgPath field = "" ->
    R3.lookup_tag field = (k, opt, true) ->
    l k w = ((v, true, None), w1) ->
    (forall ty old i,
        Val field = Vint ty old ->
        ParseInt v 0 (int_bits ty) = (i, None) ->
        R3.Lookup_fields ParseInt ParseUint ParseFloat (field :: rest) l r w t
        = let '(rest', w', t', out) :=
            R3.Lookup_fields ParseInt ParseUint ParseFloat rest l r w1
              (r k (Vint Tint64 i) (t ++ [EvSet (Name field) (Vint ty i)])%list) in
          (mkField (Name field) (PkgPath field) (Tag field) (Vint ty i) :: rest', w', t', out))
    /\ (forall ty old u,
        Val field = Vuint ty old ->
        ParseUint v 0 (uint_bits ty) = (u, None) ->
        R3.Lookup_fields ParseInt ParseUint ParseFloat (field :: rest) l r w t
        = let '(rest', w', t', out) :=
            R3.Lookup_fields ParseInt ParseUint ParseFloat rest l r w1
              (r k (Vuint Tuint64 u) (t ++ [EvSet (Name field) (Vuint ty u)])%list) in
          (mkField (Name field) (PkgPath field) (Tag field) (Vuint ty u) :: rest', w', t', out))
    /\ (forall ty old f,
        Val field = Vfloat ty old ->
        ParseFloat v (float_bits ty) = (f, None) ->
        R3.Lookup_fields ParseInt ParseUint ParseFloat (field :: rest) l r w t
        = let '(rest', w', t', out) :=
            R3.Lookup_fields ParseInt ParseUint ParseFloat rest l r w1
              (r k (Vfloat Tfloat64 f) (t ++ [EvSet (Name field) (Vfloat ty f)])%list) in
          (mkField (Name field) (PkgPath field) (Tag field) (Vfloat ty f) :: rest', w', t', out)).
Proof.
  intros W ParseInt ParseUint ParseFloat l r field rest w w1 t k v opt Hx Htag Hl.
  repeat split; intros ty old x Hv Hp;
    cbn [R3.Lookup_fields]; rewrite Htag; cbn [negb]; rewrite Hl;
    rewrite (CanInterface_exported _ Hx); cbn [negb];
    unfold R3.coerce; rewrite Hv;
    destruct ty; cbn [int_bits uint_bits float_bits] in Hp;
    unfold R3.setInt, R3.setUint, R3.setFloat; rewrite Hp, Hv;
    unfold store;
    match goal with
    | |- context [R3.Lookup_fields ?a ?b ?c ?d ?e ?f ?g ?h] =>
        destruct (R3.Lookup_fields a b c d e f g h) as [[[? ?] ?] ?]
    end; reflexivity.
Qed.

(** An [int8] field, a [uint16] field and a [float32] field, for the
    value 3. *)
Lemma R3_number_parsed_at_width_reported_as_64_bit_witness :
  R3.Lookup_fields Fixtures.parse_int Fixtures.parse_int Fixtures.parse_float
    [mkField "N" "" [("lookup", "N")] (Vint Tint8 0)] Fixtures.Env recording
    [("N", "3")] []
  = ([mkField "N" "" [("lookup", "N")] (Vint Tint8 3)], [("N", "3")],
     [EvSet "N" (Vint Tint8 3); EvReport "N" (Vint Tint64 3)], Returned None)
  /\ R3.Lookup_fields Fixtures.parse_int Fixtures.parse_int Fixtures.parse_float
       [mkField "N" "" [("lookup", "N")] (Vuint Tuint16 0)] Fixtures.Env recording
       [("N", "3")] []
     = ([mkField "N" "" [("lookup", "N")] (Vuint Tuint16 3)], [("N", "3")],
        [EvSet "N" (Vuint Tuint16 3); EvReport "N" (Vuint Tuint64 3)], Returned None)
  /\ R3.Lookup_fields Fixtures.parse_int Fixtures.parse_int Fixtures.parse_float
       [mkField "N" "" [("lookup", "N")] (Vfloat Tfloat32 0)] Fixtures.Env recording
       [("N", "3")] []
     = ([mkField "N" "" [("lookup", "N")] (Vfloat Tfloat32 3)], [("N", "3")],
        [EvSet "N" (Vfloat Tfloat32 3); EvReport "N" (Vfloat Tfloat64 3)],
        Returned None).
Proof.
  split; [|split].
  - exact (proj1 (R3_number_parsed_at_width_reported_as_64_bit
                    (list (string * string))
                    Fixtures.parse_int Fixtures.parse_int Fixtures.parse_float
                    Fixtures.Env recording
                    (mkField "N" "" [("lookup", "N")] (Vint Tint8 0)) []
                    [("N", "3")] [("N", "3")] [] "N" "3" false
                    eq_refl eq_refl eq_refl)
             Tint8 0 3 eq_refl eq_refl).
  - exact (proj1 (proj2 (R3_number_parsed_at_width_reported_as_64_bit
                    (list (string * string))
                    Fixtures.parse_int Fixtures.parse_int Fixtures.parse_float
                    Fixtures.Env recording
                    (mkField "N" "" [("lookup", "N")] (Vuint Tuint16 0)) []
                    [("N", "3")] [("N", "3")] [] "N" "3" false
                    eq_refl eq_refl eq_refl))
             Tuint16 0 3 eq_refl eq_refl).
  - exact (proj2 (proj2 (R3_number_parsed_at_width_reported_as_64_bit
                    (list (string * string))
                    Fixtures.parse_int Fixtures.parse_int Fixtures.parse_float
                    Fixtures.Env recording
                    (mkField "N" "" [("lookup", "N")] (Vfloat Tfloat32 0)) []
                    [("N", "3")] [("N", "3")] [] "N" "3" false
                    eq_refl eq_refl eq_refl))
             Tfloat32 0%float 3%float eq_refl eq_refl).
Defined.

(** When the value found for an exported numeric field does not parse at
    the field's width, the field is not touched, nothing is reported, and
    the pass stops with "value ... for field ... is not T", T being the
    field's type; the later fields are not looked up. *)
Theorem R3_number_not_parsed_aborts :
  forall (W : Type) (ParseInt ParseUint : string -> Z -> Z -> Z * option error)
         (ParseFloat : string -> Z -> float * option error)
         (l : Looker W) (r : Reporter) (field : Field) (rest : list Field)
         (w w1 : W) (t : list event) (k v : string) (opt : bool) (err : error),
    PkgPath field = "" ->
    R3.lookup_tag field = (k, opt, true) ->
    l k w = ((v, true, None), w1) ->
    (exists ty old i,
        Val field = Vint ty old /\ ParseInt v 0 (int_bits ty) = (i, Some err))
    \/ (exists ty old u,
        Val field = Vuint ty old /\ ParseUint v 0 (uint_bits ty) = (u, Some err))
    \/ (exists ty old f,
        Val field = Vfloat ty old /\ ParseFloat v (float_bits ty) = (f, Some err)) ->
    R3.Lookup_fields ParseInt ParseUint ParseFloat (field :: rest) l r w t
    = (field :: rest, w1, t,
       Returned (Some (ErrNotType v (Name field) (typeName (Val field)) err))).
Proof.
  intros W ParseInt ParseUint ParseFloat l r field rest w w1 t k v opt err
    Hx Htag Hl H.
  cbn [R3.Lookup_fields]. rewrite Htag. cbn [negb]. rewrite Hl.
  rewrite (CanInterface_exported _ Hx). cbn [negb].
  unfold R3.coerce.
  destruct H as [(ty & old & x & Hv & Hp) | [(ty & old & x & Hv & Hp) | (ty & old & x & Hv & Hp)]];
    rewrite Hv; destruct ty; cbn [int_bits uint_bits float_bits] in Hp;
    unfold R3.setInt, R3.setUint, R3.setFloat; rewrite Hp; reflexivity.
Qed.

(** A [uint16] field, for a value that is not a number. *)
Lemma R3_number_not_parsed_aborts_witness :
  R3.Lookup_fields Fixtures.parse_int Fixtures.parse_int Fixtures.parse_float
    [mkField "N" "" [("lookup", "N")] (Vuint Tuint16 7);
     mkField "S" "" [("lookup", "S")] (Vstring "")] Fixtures.Env recording
    [("N", "x"); ("S", "s")] []
  = ([mkField "N" "" [("lookup", "N")] (Vuint Tuint16 7);
      mkField "S" "" [("lookup", "S")] (Vstring "")], [("N", "x"); ("S", "s")], [],
     Returned (Some (ErrNotType "x" "N" "uint16" (NumError "ParseInt" "x")))).
Proof.
  apply (R3_number_not_parsed_aborts (list (string * string))
           Fixtures.parse_int Fixtures.parse_int Fixtures.parse_float
           Fixtures.Env recording
           (mkField "N" "" [("lookup", "N")] (Vuint Tuint16 7))
           [mkField "S" "" [("lookup", "S")] (Vstring "")]
           [("N", "x"); ("S", "s")] [("N", "x"); ("S", "s")] [] "N" "x" false
           (NumError "ParseInt" "x") eq_refl eq_refl eq_refl).
  right. left. exists Tuint16, 7, 0. split; reflexivity.
Defined.



(** This revision reads the [lookup] tag only: a record whose fields have
    no [lookup] tag with a value, whatever their [json] tags, is passed
    without error and without any effect; the source is never called. *)
Theorem R3_Lookup_reads_lookup_tag_only :
  forall (W : Type) (ParseInt ParseUint : string -> Z -> Z -> Z * option error)
         (ParseFloat : string -> Z -> float * option error)
         (l : Looker W) (r : option Reporter) (fields : list Field)
         (w : W) (t : list event),
    (forall f, In f fields -> matches (Tag f) (mkTagDef "lookup" "optional") = false) ->
    R3.Lookup ParseInt ParseUint ParseFloat (Pointer fields) l r w t
    = (Pointer fields, w, t, Returned None).
Proof.
  intros W ParseInt ParseUint ParseFloat l r fields w t H. unfold R3.Lookup.
  assert (E : R3.Lookup_fields ParseInt ParseUint ParseFloat fields l (orDiscard r) w t
              = (fields, w, t, Returned None)).
  { induction fields as [|f fields IH]; [reflexivity|].
    cbn [R3.Lookup_fields].
    assert (Hf : R3.lookup_tag f = (Name f, false, false)).
    { pose proof (H f (or_introl eq_refl)) as Hm.
      unfold matches in Hm. cbn [tag] in Hm. unfold R3.lookup_tag.
      destruct (reflect.Lookup (Tag f) "lookup") as [s ok]. now rewrite Hm. }
    rewrite Hf. cbn [negb]. rewrite IH; [reflexivity|].
    intros f' Hf'. apply H. now right. }
  now rewrite E.
Qed.

(** A struct with a [json] tag, which the later revision would fill. *)
Lemma R3_Lookup_reads_lookup_tag_only_witness :
  R3.Lookup Fixtures.parse_int Fixtures.parse_int Fixtures.parse_float
    (Pointer [mkField "A" "" [("json", "A")] (Vstring "old")])
    Fixtures.Env (Some recording) [("A", "new")] []
  = (Pointer [mkField "A" "" [("json", "A")] (Vstring "old")],
     [("A", "new")], [], Returned None).
Proof.
  apply (R3_Lookup_reads_lookup_tag_only (list (string * string))
           Fixtures.parse_int Fixtures.parse_int Fixtures.parse_float
           Fixtures.Env (Some recording)
           [mkField "A" "" [("json", "A")] (Vstring "old")] [("A", "new")] []).
  intros f [<- | []]. reflexivity.
Defined.

Example R1_Lookup_reads_json_tag :
  R1.Lookup Fixtures.scan_bool
    (Pointer [mkField "A" "" [("json", "A")] (Vstring "old")])
    (Some recording) [Fixtures.Env] [("A", "new")] []
  = (Pointer [mkField "A" "" [("json", "A")] (Vstring "new")],
     [("A", "new")], [EvSet "A" (Vstring "new"); EvReport "A" (Vstring "new")],
     Returned None).
Proof. reflexivity. Qed.

(** ** Unexported fields *)

(** A tagged field that is not exported and whose value the sources find
    makes [Lookup] panic, in the three revisions: [field.Interface()] is
    called before anything is stored or reported, on a value obtained from
    an unexported field.  The field, the later fields and the log are as
    they were; the sources have been asked for the field's key. *)
Theorem Lookup_unexported_found_field_panics :
  forall (W : Type) (Sscanln : string -> value -> Z * option value * option error)
         (ParseInt ParseUint : string -> Z -> Z -> Z * option error)
         (ParseFloat : string -> Z -> float * option error)
         (r : Reporter) (seq : list (Looker W)) (field : Field) (rest : list Field)
         (w w1 : W) (t : list event) (k v : string) (opt : bool),
    PkgPath field <> "" ->
    lookupKey k seq w = ((v, true, None), w1) ->
    (R1.findTag (Tag field) = (k, opt) ->
     String.eqb k notFound = false ->
     R1.Lookup_fields Sscanln (field :: rest) r seq w t
     = (field :: rest, w1, t, Panicked Interface_panic))
    /\ (R2.tag_loop lookupTags (Tag field) (Name field, false, false)
        = (k, opt, true) ->
        R2.Lookup_fields Sscanln (field :: rest) r seq w t
        = (field :: rest, w1, t, Panicked Interface_panic))
    /\ (R3.lookup_tag field = (k, opt, true) ->
        R3.Lookup_fields ParseInt ParseUint ParseFloat (field :: rest)
          (Seq_LookupKey seq) r w t
        = (field :: rest, w1, t, Panicked Interface_panic)).
Proof.
  intros W Sscanln PI PU PF r seq field rest w w1 t k v opt Hx Hk.
  assert (Hc : CanInterface field = false).
  { unfold CanInterface. apply String.eqb_neq. exact Hx. }
  split; [|split].
  - intros Htag Hne. cbn [R1.Lookup_fields]. rewrite Htag, Hne, Hk.
    unfold R1.setField. rewrite Hc. reflexivity.
  - intros Htag. cbn [R2.Lookup_fields]. rewrite Htag, Hk. cbn [negb].
    rewrite Hc. reflexivity.
  - intros Htag. cbn [R3.Lookup_fields]. rewrite Htag. cbn [negb].
    change (Seq_LookupKey seq k w) with (lookupKey k seq w). rewrite Hk.
    rewrite Hc. reflexivity.
Qed.

(** [n int8 `lookup:"N"`] in package [main], with [N=3] in the
    environment. *)
Lemma Lookup_unexported_found_field_panics_witness :
  R1.Lookup_fields Fixtures.scan_bool
    [mkField "n" "main" [("lookup", "N")] (Vint Tint8 0)] recording
    [Fixtures.Env] [("N", "3")] []
  = ([mkField "n" "main" [("lookup", "N")] (Vint Tint8 0)], [("N", "3")], [],
     Panicked Interface_panic)
  /\ R3.Lookup_fields Fixtures.parse_int Fixtures.parse_int Fixtures.parse_float
       [mkField "n" "main" [("lookup", "N")] (Vint Tint8 0)]
       (Seq_LookupKey [Fixtures.Env]) recording [("N", "3")] []
     = ([mkField "n" "main" [("lookup", "N")] (Vint Tint8 0)], [("N", "3")], [],
        Panicked Interface_panic).
Proof.
  pose proof (Lookup_unexported_found_field_panics (list (string * string))
                Fixtures.scan_bool
                Fixtures.parse_int Fixtures.parse_int Fixtures.parse_float
                recording [Fixtures.Env]
                (mkField "n" "main" [("lookup", "N")] (Vint Tint8 0)) []
                [("N", "3")] [("N", "3")] [] "N" "3" false) as H.
  assert (Hx : PkgPath (mkField "n" "main" [("lookup", "N")] (Vint Tint8 0)) <> "")
    by discriminate.
  destruct (H Hx eq_refl) as (H1 & _ & H3).
  split; [exact (H1 eq_refl eq_refl) | exact (H3 eq_refl)].
Defined.

(** An unexported field that is optional and missing is reported and
    passed: nothing calls [Interface] on it. *)
Example Lookup_unexported_missing_optional :
  R1.Lookup_fields Fixtures.scan_bool
    [mkField "n" "main" [("lookup", "N,optional")] (Vint Tint8 0)] recording
    [Fixtures.Env] [] []
  = ([mkField "n" "main" [("lookup", "N,optional")] (Vint Tint8 0)], [],
     [EvReport "N" (Vstring "")], Returned None).
Proof. reflexivity. Qed.
